(** * TreeTagger adapter (treetagger3.py): a shallow embedding

    The module [treetagger3.py] wraps the external TreeTagger executable:
    the constructor validates a (language, encoding) pair against a fixed
    table and resolves the binary, and [tag] pipes text through a child
    process and splits its output into records.

    Python values are modelled as follows.
    - [str] is a sequence of Unicode code points ([list N]);
    - [bytes] is a sequence of octets ([list byte]);
    - exceptions are an explicit [Raise] outcome;
    - the attributes of [self], and everything the code does to the outside
      world (the [find_binary] search, [Popen], [communicate], [print]), are
      threaded through a small state-and-exception monad whose state
      survives a raised exception, as it does in Python. *)

From Stdlib Require Import List NArith ZArith Bool Lia.
From Stdlib Require Import Strings.Ascii Strings.Byte.
From Stdlib Require Strings.String.
Import String.StringSyntax.
Delimit Scope string_scope with string.
Import ListNotations.

Set Implicit Arguments.

(* ================================================================== *)
(** ** Python strings and bytes *)
(* ================================================================== *)

Module Py.

Local Open Scope N_scope.

(** A Python 3 [str]: code points, each at most [0x10FFFF]. *)
Definition str := list N.

(** A Python 3 [bytes] object. *)
Definition bytes := list byte.

(** An ASCII literal as a [str]. *)
Definition u (s : String.string) : str :=
  map N_of_ascii (String.list_ascii_of_string s).

(** An ASCII literal as [bytes]. *)
Definition b (s : String.string) : bytes := String.list_byte_of_string s.

Arguments u s%_string.
Arguments b s%_string.

Definition max_code_point : N := 0x10FFFF.

Fixpoint str_eqb (x y : str) : bool :=
  match x, y with
  | [], [] => true
  | c :: x', d :: y' => N.eqb c d && str_eqb x' y'
  | _, _ => false
  end.

(** [bool(s)] for a string: the empty string is falsy. *)
Definition truthy (s : str) : bool :=
  match s with [] => false | _ :: _ => true end.

Definition NL : N := 10.
Definition TAB : N := 9.

(** [x in l] for a list of strings. *)
Definition list_contains (l : list str) (x : str) : bool := existsb (str_eqb x) l.

(** [sep.join(xs)] *)
Fixpoint join (sep : str) (xs : list str) : str :=
  match xs with
  | [] => []
  | [x] => x
  | x :: rest => x ++ sep ++ join sep rest
  end.

(** [s.split(sep)] for a separator of one character (both separators the
    module uses, ['\n'] and ['\t'], are): every occurrence of [sep] ends a
    field, and the result always holds at least one field. *)
Fixpoint split (sep : N) (s : str) : list str :=
  match s with
  | [] => [[]]
  | c :: s' =>
      if N.eqb c sep then [] :: split sep s'
      else match split sep s' with
           | [] => [[c]]
           | w :: ws => (c :: w) :: ws
           end
  end.

(** [Py_UNICODE_ISSPACE]: the characters [str.strip()] removes when called
    without an argument. *)
Definition isspace (c : N) : bool :=
  ((0x09 <=? c) && (c <=? 0x0D)) || ((0x1C <=? c) && (c <=? 0x20))
  || (c =? 0x85) || (c =? 0xA0) || (c =? 0x1680)
  || ((0x2000 <=? c) && (c <=? 0x200A))
  || (c =? 0x2028) || (c =? 0x2029) || (c =? 0x202F) || (c =? 0x205F)
  || (c =? 0x3000).

Fixpoint lstrip (s : str) : str :=
  match s with
  | [] => []
  | c :: s' => if isspace c then lstrip s' else s
  end.

Definition rstrip (s : str) : str := rev (lstrip (rev s)).

(** [s.strip()]: all leading and all trailing whitespace goes. *)
Definition strip (s : str) : str := rstrip (lstrip s).

(* ------------------------------------------------------------------ *)
(** *** Codecs *)

Definition byte_of_N (n : N) : byte :=
  match Byte.of_N (N.land n 0xFF) with
  | Some x => x
  | None => x00
  end.

(** One code point in UTF-8, strict error handler: surrogates and values
    past [0x10FFFF] cannot be encoded. *)
Definition utf8_encode_char (c : N) : option bytes :=
  if c <? 0x80 then Some [byte_of_N c]
  else if c <? 0x800 then
    Some [byte_of_N (N.lor 0xC0 (N.shiftr c 6));
          byte_of_N (N.lor 0x80 (N.land c 0x3F))]
  else if c <? 0x10000 then
    if (0xD800 <=? c) && (c <=? 0xDFFF) then None
    else
      Some [byte_of_N (N.lor 0xE0 (N.shiftr c 12));
            byte_of_N (N.lor 0x80 (N.land (N.shiftr c 6) 0x3F));
            byte_of_N (N.lor 0x80 (N.land c 0x3F))]
  else if c <=? max_code_point then
    Some [byte_of_N (N.lor 0xF0 (N.shiftr c 18));
          byte_of_N (N.lor 0x80 (N.land (N.shiftr c 12) 0x3F));
          byte_of_N (N.lor 0x80 (N.land (N.shiftr c 6) 0x3F));
          byte_of_N (N.lor 0x80 (N.land c 0x3F))]
  else None.

Fixpoint utf8_encode (s : str) : option bytes :=
  match s with
  | [] => Some []
  | c :: s' =>
      match utf8_encode_char c, utf8_encode s' with
      | Some x, Some y => Some (x ++ y)
      | _, _ => None
      end
  end.

Definition is_cont (x : byte) : bool :=
  let n := Byte.to_N x in (0x80 <=? n) && (n <=? 0xBF).

Definition cont_bits (x : byte) : N := N.land (Byte.to_N x) 0x3F.

(** Strict UTF-8 decoding: overlong forms, surrogates, values past
    [0x10FFFF], stray continuation bytes and truncated sequences are
    errors. *)
Fixpoint utf8_decode (x : bytes) : option str :=
  match x with
  | [] => Some []
  | b0 :: r0 =>
      let n0 := Byte.to_N b0 in
      if n0 <? 0x80 then option_map (cons n0) (utf8_decode r0)
      else if n0 <? 0xC2 then None
      else if n0 <? 0xE0 then
        match r0 with
        | b1 :: r1 =>
            if is_cont b1 then
              option_map
                (cons (N.lor (N.shiftl (N.land n0 0x1F) 6) (cont_bits b1)))
                (utf8_decode r1)
            else None
        | [] => None
        end
      else if n0 <? 0xF0 then
        match r0 with
        | b1 :: b2 :: r2 =>
            let n1 := Byte.to_N b1 in
            let lo := if n0 =? 0xE0 then 0xA0 else 0x80 in
            let hi := if n0 =? 0xED then 0x9F else 0xBF in
            if (lo <=? n1) && (n1 <=? hi) && is_cont b2 then
              option_map
                (cons (N.lor (N.shiftl (N.land n0 0x0F) 12)
                         (N.lor (N.shiftl (cont_bits b1) 6) (cont_bits b2))))
                (utf8_decode r2)
            else None
        | _ => None
        end
      else if n0 <? 0xF5 then
        match r0 with
        | b1 :: b2 :: b3 :: r3 =>
            let n1 := Byte.to_N b1 in
            let lo := if n0 =? 0xF0 then 0x90 else 0x80 in
            let hi := if n0 =? 0xF4 then 0x8F else 0xBF in
            if (lo <=? n1) && (n1 <=? hi) && is_cont b2 && is_cont b3 then
              option_map
                (cons (N.lor (N.shiftl (N.land n0 0x07) 18)
                         (N.lor (N.shiftl (cont_bits b1) 12)
                            (N.lor (N.shiftl (cont_bits b2) 6) (cont_bits b3)))))
                (utf8_decode r3)
            else None
        | _ => None
        end
      else None
  end.

(** Latin-1 maps code points below 256 to the byte of the same value. *)
Fixpoint latin1_encode (s : str) : option bytes :=
  match s with
  | [] => Some []
  | c :: s' =>
      if c <? 256 then option_map (cons (byte_of_N c)) (latin1_encode s')
      else None
  end.

Definition latin1_decode (x : bytes) : str := map Byte.to_N x.

End Py.

Import Py.

(* ================================================================== *)
(** ** Values, exceptions and the effect monad *)
(* ================================================================== *)

(** The dynamically typed values the module branches on with
    [isinstance]. *)
Inductive PyVal : Type :=
| VNone
| VStr (s : str)
| VBytes (x : bytes).

Inductive ExcClass : Type :=
| LookupError
| KeyError
| OSError
| TypeError
| AttributeError
| UnicodeEncodeError
| UnicodeDecodeError.

Definition ExcClass_eqb (c d : ExcClass) : bool :=
  match c, d with
  | LookupError, LookupError | KeyError, KeyError | OSError, OSError
  | TypeError, TypeError | AttributeError, AttributeError
  | UnicodeEncodeError, UnicodeEncodeError
  | UnicodeDecodeError, UnicodeDecodeError => true
  | _, _ => false
  end.

(** [issubclass c d] within the classes above: [KeyError] derives from
    [LookupError]; the others are unrelated. *)
Definition issubclass (c d : ExcClass) : bool :=
  ExcClass_eqb c d ||
  match c, d with
  | KeyError, LookupError => true
  | _, _ => false
  end.

(** An exception instance: its class and its [args] tuple. *)
Record Exn : Type := mkExn { exc_class : ExcClass; exc_args : list PyVal }.

Inductive Outcome (A : Type) : Type :=
| Return (a : A)
| Raise (e : Exn).

Arguments Return {A} a.
Arguments Raise {A} e.

Section Monad.
Variable St : Type.

(** A computation reads and writes the state and ends normally or with
    an exception; the state written before a [raise] stays written. *)
Definition M (A : Type) : Type := St -> Outcome A * St.

Definition ret {A} (a : A) : M A := fun s => (Return a, s).

Definition raise {A} (e : Exn) : M A := fun s => (Raise e, s).

Definition lift {A} (o : Outcome A) : M A := fun s => (o, s).

Definition bind {A B} (m : M A) (k : A -> M B) : M B :=
  fun s =>
    match m s with
    | (Return a, s') => k a s'
    | (Raise e, s') => (Raise e, s')
    end.

(** [try: m  except cls as e: h e] *)
Definition try_except {A} (m : M A) (cls : ExcClass) (h : Exn -> M A) : M A :=
  fun s =>
    match m s with
    | (Return a, s') => (Return a, s')
    | (Raise e, s') =>
        if issubclass (exc_class e) cls then h e s' else (Raise e, s')
    end.
End Monad.

Arguments ret {St A} a.
Arguments raise {St A} e.
Arguments lift {St A} o.
Arguments bind {St A B} m k.
Arguments try_except {St A} m cls h.

Declare Scope py_scope.
Delimit Scope py_scope with py.
Notation "x <- m ;; k" := (bind m (fun x => k))
  (at level 61, m at next level, right associativity) : py_scope.
Notation "m ;; k" := (bind m (fun _ => k))
  (at level 61, right associativity) : py_scope.
Open Scope py_scope.

(* ================================================================== *)
(** ** The outside world *)
(* ================================================================== *)

(** [subprocess.PIPE], or [None] (the stream is inherited). *)
Inductive Stream : Type := PIPE | Inherited.

(** The arguments of one [Popen(...)] call. *)
Record PopenCall : Type := mkPopen {
  popen_args : list str;
  popen_shell : bool;
  popen_stdin : Stream;
  popen_stdout : Stream;
  popen_stderr : Stream
}.

(** The arguments of one [nltk.internals.find_binary(...)] call. *)
Record FindBinaryCall : Type := mkFindBinary {
  fb_name : str;
  fb_path_to_bin : option str;
  fb_env_vars : list str;
  fb_searchpath : list str;
  fb_url : str;
  fb_verbose : bool
}.

(** What a finished child process hands back to [communicate]. *)
Record Completed : Type := mkCompleted {
  returncode : Z;
  stdout : bytes;
  stderr : bytes
}.

(** A spawned child: from the bytes written to its standard input to its
    exit status and captured streams. *)
Definition Process : Type := bytes -> Completed.

(** What the module does to the world, in order. *)
Inductive Event : Type :=
| EvFindBinary (c : FindBinaryCall)
| EvPopen (c : PopenCall)
| EvCommunicate (input : PyVal)
| EvPrint (v : PyVal).

(** The instance dictionary of a [TreeTagger] object: an attribute is
    absent until [__init__] assigns it. *)
Record Object : Type := mkObject {
  _abbr_list : option (option str);
  _encoding : option str;
  _treetagger_bin : option str
}.

Definition blank : Object :=
  {| _abbr_list := None; _encoding := None; _treetagger_bin := None |}.

Record State : Type := mkState { self : Object; trace : list Event }.

Definition emit (e : Event) : M State unit :=
  fun s => (Return tt, {| self := self s; trace := trace s ++ [e] |}).

Definition attribute_error (name : str) : Exn :=
  mkExn AttributeError [VStr name].

(** [self.<name>] *)
Definition getattr {A} (name : str) (field : Object -> option A) : M State A :=
  fun s =>
    match field (self s) with
    | Some v => (Return v, s)
    | None => (Raise (attribute_error name), s)
    end.

(** [self.<name> = v] *)
Definition setattr (upd : Object -> Object) : M State unit :=
  fun s => (Return tt, {| self := upd (self s); trace := trace s |}).

Definition set_abbr_list (v : option str) (o : Object) : Object :=
  {| _abbr_list := Some v; _encoding := _encoding o;
     _treetagger_bin := _treetagger_bin o |}.

Definition set_encoding (v : str) (o : Object) : Object :=
  {| _abbr_list := _abbr_list o; _encoding := Some v;
     _treetagger_bin := _treetagger_bin o |}.

Definition set_treetagger_bin (v : str) (o : Object) : Object :=
  {| _abbr_list := _abbr_list o; _encoding := _encoding o;
     _treetagger_bin := Some v |}.

(* ------------------------------------------------------------------ *)
(** *** Built-ins with errors *)

(** The two codecs the language table names. The constructor stores no
    other encoding, so the rest of Python's codec registry is left out:
    any other name is answered with the registry's [LookupError]. *)
Definition str_encode (s : str) (encoding : str) : Outcome bytes :=
  if str_eqb encoding (u "utf-8") then
    match utf8_encode s with
    | Some x => Return x
    | None => Raise (mkExn UnicodeEncodeError [VStr encoding; VStr s])
    end
  else if str_eqb encoding (u "latin-1") then
    match latin1_encode s with
    | Some x => Return x
    | None => Raise (mkExn UnicodeEncodeError [VStr encoding; VStr s])
    end
  else Raise (mkExn LookupError [VStr (u "unknown encoding: " ++ encoding)]).

(** [str(x, encoding)] and [x.decode(encoding)] for bytes [x]. *)
Definition bytes_decode (x : bytes) (encoding : str) : Outcome str :=
  if str_eqb encoding (u "utf-8") then
    match utf8_decode x with
    | Some s => Return s
    | None => Raise (mkExn UnicodeDecodeError [VStr encoding; VBytes x])
    end
  else if str_eqb encoding (u "latin-1") then Return (latin1_decode x)
  else Raise (mkExn LookupError [VStr (u "unknown encoding: " ++ encoding)]).

(** A [dict] with string keys, in insertion order. *)
Definition dict (V : Type) : Type := list (str * V).

Fixpoint dict_get {V} (d : dict V) (k : str) : option V :=
  match d with
  | [] => None
  | (k', v) :: d' => if str_eqb k k' then Some v else dict_get d' k
  end.

(** [k in d.keys()] *)
Definition dict_has_key {V} (d : dict V) (k : str) : bool :=
  existsb (fun kv => str_eqb k (fst kv)) d.

(** [d[k]] *)
Definition dict_getitem {V} (d : dict V) (k : str) : Outcome V :=
  match dict_get d k with
  | Some v => Return v
  | None => Raise (mkExn KeyError [VStr k])
  end.

(* ================================================================== *)
(** ** treetagger3.py *)
(* ================================================================== *)

(** [tUoB3(obj, encoding='utf-8')]. [str(obj, encoding)] decodes a
    bytes-like object and refuses a [str] ("decoding str is not
    supported"); any other object is handed back as it is. A [bytearray]
    behaves as [bytes] does. *)
Definition tUoB3 (obj : PyVal) (encoding : str) : Outcome PyVal :=
  match obj with
  | VStr _ => Raise (mkExn TypeError [VStr (u "decoding str is not supported")])
  | VBytes x =>
      match bytes_decode x encoding with
      | Return s => Return (VStr s)
      | Raise e => Raise e
      end
  | VNone => Return obj
  end.

(** The default of [tUoB3]'s second parameter. *)
Definition tUoB3_default_encoding : str := u "utf-8".

Definition _treetagger_url : str :=
  u "http://www.cis.uni-muenchen.de/~schmid/tools/TreeTagger/".

Definition _treetagger_languages : dict (list str) :=
  [ (u "latin-1", [u "latin"; u "latinIT"; u "mongolian"; u "swahili"]);
    (u "utf-8",
      [u "bulgarian"; u "dutch"; u "english"; u "estonian"; u "finnish";
       u "french"; u "galician"; u "german"; u "italian"; u "polish";
       u "russian"; u "slovak"; u "slovak2"; u "spanish"]) ].

Definition _treetagger_charset : list str := [u "utf-8"; u "latin-1"].

Definition lookup_failed : Exn :=
  mkExn LookupError [VStr (u "NLTK was unable to find the TreeTagger bin!")].

Definition command_failed : Exn :=
  mkExn OSError [VStr (u "TreeTagger command failed!")].

(** The inputs of [tag] that are modelled: a list of words, one string,
    or encoded bytes. The source hands any other object (a tuple of words,
    a list holding something other than strings) on as it is, and
    [join] or [communicate] then raises [TypeError]; such inputs are
    outside this type. *)
Inductive Sentences : Type :=
| OfList (words : list str)
| OfStr (text : str)
| OfBytes (raw : bytes).

Section TreeTagger.

(** [nltk.internals.find_binary]: the path found, or its [LookupError]. *)
Variable find_binary : FindBinaryCall -> Outcome str.

(** [os.path.expanduser] *)
Variable expanduser : str -> str.

(** The operating system's answer to [Popen]: a running child, or the
    exception [Popen] raises when the program cannot be started. *)
Variable spawn : PopenCall -> Outcome Process.

Definition call_find_binary (c : FindBinaryCall) : M State str :=
  emit (EvFindBinary c) ;; lift (find_binary c).

Definition Popen (c : PopenCall) : M State Process :=
  emit (EvPopen c) ;; lift (spawn c).

(** [p.communicate(input)]: the streams are pipes, so both captured
    outputs are [bytes]; [p.returncode] is set on return. Writing a
    [str] to the binary pipe is a [TypeError]. *)
Definition communicate (p : Process) (input : PyVal) : M State Completed :=
  emit (EvCommunicate input) ;;
  match input with
  | VBytes x => ret (p x)
  | VNone => ret (p [])
  | VStr _ =>
      raise (mkExn TypeError [VStr (u "a bytes-like object is required, not 'str'")])
  end.

Definition print (v : PyVal) : M State unit := emit (EvPrint v).

(** [TreeTagger.__init__] (lines 82-121). *)
Definition __init__ (path_to_home : option str) (language encoding : str)
    (verbose : bool) (abbreviation_list : option str) : M State unit :=
  let treetagger_paths :=
    [u "."; u "/usr/bin"; u "/usr/local/bin"; u "/opt/local/bin";
     u "/Applications/bin"; u "~/bin"; u "~/Applications/bin";
     u "~/work/TreeTagger/cmd"; u "~/tree-tagger/cmd"] in
  let treetagger_paths := map expanduser treetagger_paths in
  setattr (set_abbr_list abbreviation_list) ;;
  treetagger_bin_name <-
    try_except
      (known <-
         (if dict_has_key _treetagger_languages encoding then
            langs <- lift (dict_getitem _treetagger_languages encoding) ;;
            ret (list_contains langs language)
          else ret false) ;;
       if known then
         (if str_eqb encoding (u "latin-1")
          then setattr (set_encoding (u "latin-1"))
          else setattr (set_encoding encoding)) ;;
         ret (u "tree-tagger-" ++ language)
       else raise lookup_failed)
      KeyError
      (fun _ => raise lookup_failed) ;;
  bin <- call_find_binary
           {| fb_name := treetagger_bin_name;
              fb_path_to_bin := path_to_home;
              fb_env_vars := [u "TREETAGGER"; u "TREETAGGER_HOME"];
              fb_searchpath := treetagger_paths;
              fb_url := _treetagger_url;
              fb_verbose := verbose |} ;;
  setattr (set_treetagger_bin bin).

(** [TreeTagger(...)]: a fresh object is initialised; nothing is handed
    to the caller when [__init__] raises. *)
Definition TreeTagger (path_to_home : option str) (language encoding : str)
    (verbose : bool) (abbreviation_list : option str) (log : list Event)
    : Outcome Object * list Event :=
  match __init__ path_to_home language encoding verbose abbreviation_list
          {| self := blank; trace := log |} with
  | (Return _, s) => (Return (self s), trace s)
  | (Raise e, s) => (Raise e, trace s)
  end.

(** Lines 130-136 of [tag]: the value of [_input] handed to
    [communicate]. *)
Definition prepare_input (encoding : str) (sentences : Sentences) : Outcome PyVal :=
  let _input :=
    match sentences with
    | OfList words => VStr (join [NL] words)
    | OfStr text => VStr text
    | OfBytes raw => VBytes raw
    end in
  match _input with
  | VStr s =>
      if truthy encoding then
        match str_encode s encoding with
        | Return x => Return (VBytes x)
        | Raise e => Raise e
        end
      else Return _input
  | _ => Return _input
  end.

(** Lines 153-156 of [tag]. A [str] has no [decode] method. *)
Definition decode_output (encoding : str) (out : PyVal) : Outcome PyVal :=
  match out with
  | VStr _ =>
      if truthy encoding then Raise (attribute_error (u "decode"))
      else tUoB3 out tUoB3_default_encoding
  | _ => tUoB3 out tUoB3_default_encoding
  end.

(** The loop of lines 159-162 over the lines of the output. *)
Definition tagged_sentences_of (lines : list str) : list (list str) :=
  fold_left (fun tagged_sentences tagged_word =>
               tagged_sentences ++ [split TAB tagged_word])
            lines [].

(** Lines 159-164 of [tag]. *)
Definition parse_output (treetagger_output : PyVal) : Outcome (list (list str)) :=
  match treetagger_output with
  | VStr s => Return (tagged_sentences_of (split NL (strip s)))
  | VBytes _ =>
      Raise (mkExn TypeError [VStr (u "a bytes-like object is required, not 'str'")])
  | VNone => Raise (attribute_error (u "strip"))
  end.

(** [TreeTagger.tag] (lines 123-164). *)
Definition tag (sentences : Sentences) : M State (list (list str)) :=
  encoding <- getattr (u "_encoding") _encoding ;;
  _input <- lift (prepare_input encoding sentences) ;;
  abbr_list <- getattr (u "_abbr_list") _abbr_list ;;
  p <- match abbr_list with
       | None =>
           bin <- getattr (u "_treetagger_bin") _treetagger_bin ;;
           Popen {| popen_args := [bin]; popen_shell := false;
                    popen_stdin := PIPE; popen_stdout := PIPE;
                    popen_stderr := PIPE |}
       | Some abbr =>
           bin <- getattr (u "_treetagger_bin") _treetagger_bin ;;
           Popen {| popen_args := [bin; u "-a"; abbr]; popen_shell := false;
                    popen_stdin := PIPE; popen_stdout := PIPE;
                    popen_stderr := PIPE |}
       end ;;
  done <- communicate p _input ;;
  if negb (returncode done =? 0)%Z then
    print (VBytes (stderr done)) ;;
    raise command_failed
  else
    treetagger_output <- lift (decode_output encoding (VBytes (stdout done))) ;;
    lift (parse_output treetagger_output).

End TreeTagger.

(** The [Popen] call of [tag]: the binary alone, or the binary with
    [-a] and the abbreviation list; never through a shell, all three
    streams piped. *)
Definition popen_call (bin : str) (abbr_list : option str) : PopenCall :=
  {| popen_args := match abbr_list with
                   | None => [bin]
                   | Some abbr => [bin; u "-a"; abbr]
                   end;
     popen_shell := false;
     popen_stdin := PIPE; popen_stdout := PIPE; popen_stderr := PIPE |}.

(** Lines 148-164 of [tag]: what follows [communicate]. *)
Definition after_communicate (encoding : str) (done : Completed) (o : Object)
    (log : list Event) : Outcome (list (list str)) * State :=
  if negb (returncode done =? 0)%Z then
    (Raise command_failed,
     {| self := o; trace := log ++ [EvPrint (VBytes (stderr done))] |})
  else
    (match decode_output encoding (VBytes (stdout done)) with
     | Return v => parse_output v
     | Raise e => Raise e
     end,
     {| self := o; trace := log |}).

(** One [tag] call on the object [o], observing the world from an empty
    log. *)
Definition run_tag (spawn : PopenCall -> Outcome Process) (o : Object)
    (sentences : Sentences) : Outcome (list (list str)) * State :=
  tag spawn sentences {| self := o; trace := [] |}.

Definition result_of (spawn : PopenCall -> Outcome Process) (o : Object)
    (sentences : Sentences) : Outcome (list (list str)) :=
  fst (run_tag spawn o sentences).

Definition events_of (spawn : PopenCall -> Outcome Process) (o : Object)
    (sentences : Sentences) : list Event :=
  trace (snd (run_tag spawn o sentences)).

Definition is_popen (e : Event) : bool :=
  match e with
  | EvPopen _ => true
  | _ => false
  end.

(** The call started a child, wrote bytes to it, and the child finished
    with [done]. *)
Definition child_finished (spawn : PopenCall -> Outcome Process) (o : Object)
    (sentences : Sentences) (done : Completed) : Prop :=
  exists c x p rest,
    events_of spawn o sentences = EvPopen c :: EvCommunicate (VBytes x) :: rest
    /\ spawn c = Return p /\ p x = done.

(** The text [tag] goes on to split, when the child's standard output
    decodes. *)
Definition decoded_output (o : Object) (done : Completed) (s : str) : Prop :=
  exists encoding,
    _encoding o = Some encoding
    /\ decode_output encoding (VBytes (stdout done)) = Return (VStr s).

(* ------------------------------------------------------------------ *)
(** *** Vocabulary of the specification *)

Definition newline_free (s : str) : Prop := ~ In NL s.

Definition begins_with_space (s : str) : bool :=
  match s with
  | [] => false
  | c :: _ => isspace c
  end.

Definition ends_with_space (s : str) : bool := begins_with_space (rev s).

(** Some character of [s] is not whitespace. *)
Definition has_nonspace (s : str) : bool := existsb (fun c => negb (isspace c)) s.

(** "Removing exactly one trailing newline (and nothing else)". *)
Definition remove_one_trailing_newline (s : str) : str :=
  match rev s with
  | c :: r => if N.eqb c NL then rev r else s
  | [] => s
  end.

(** The records the specification describes: one trailing newline is
    trimmed, the rest is cut at newlines, each line at tabs. *)
Definition spec_records (s : str) : list (list str) :=
  map (split TAB) (split NL (remove_one_trailing_newline s)).

(** The raw lines of an output, as the specification counts them. *)
Definition spec_lines (s : str) : list str :=
  split NL (remove_one_trailing_newline s).

(** The number of tab-separated fields of a line: one more than its tabs. *)
Definition tab_fields (line : str) : nat := S (count_occ N.eq_dec line TAB).

(** Lines, each terminated by a newline. *)
Definition unlines (lines : list str) : str :=
  concat (map (fun l => l ++ [NL]) lines).

(** The child "emits exactly one output line per input line". *)
Definition one_line_per_token (tokens : list str) (s : str) : Prop :=
  exists lines,
    length lines = length tokens /\ Forall newline_free lines /\ s = unlines lines.

Definition map_first {A} (f : A -> A) (l : list A) : list A :=
  match l with
  | [] => []
  | x :: r => f x :: r
  end.

Fixpoint map_last {A} (f : A -> A) (l : list A) : list A :=
  match l with
  | [] => []
  | [x] => [f x]
  | x :: r => x :: map_last f r
  end.

(** What [strip] leaves of a sequence of lines: the first loses its
    leading whitespace and the last its trailing whitespace. *)
Definition trim_ends (lines : list str) : list str :=
  map_last rstrip (map_first lstrip lines).

(** The [find_binary] call of the constructor. *)
Definition find_binary_call (expanduser : str -> str) (path_to_home : option str)
    (language : str) (verbose : bool) : FindBinaryCall :=
  {| fb_name := u "tree-tagger-" ++ language;
     fb_path_to_bin := path_to_home;
     fb_env_vars := [u "TREETAGGER"; u "TREETAGGER_HOME"];
     fb_searchpath :=
       map expanduser
         [u "."; u "/usr/bin"; u "/usr/local/bin"; u "/opt/local/bin";
          u "/Applications/bin"; u "~/bin"; u "~/Applications/bin";
          u "~/work/TreeTagger/cmd"; u "~/tree-tagger/cmd"];
     fb_url := _treetagger_url;
     fb_verbose := verbose |}.

(** The test of line 104, as a boolean. *)
Definition known_pair (language encoding : str) : bool :=
  match dict_get _treetagger_languages encoding with
  | Some langs => list_contains langs language
  | None => false
  end.

(** The pair is an entry of the language table. *)
Definition in_language_table (language encoding : str) : Prop :=
  exists langs,
    dict_get _treetagger_languages encoding = Some langs /\ In language langs.

(* ------------------------------------------------------------------ *)
(** *** Concrete worlds, for examples *)

Module Sample.

(** A search that finds every binary under [/usr/bin]. *)
Definition found (c : FindBinaryCall) : Outcome str :=
  Return (u "/usr/bin/" ++ fb_name c).

(** A search that finds nothing. *)
Definition not_found (c : FindBinaryCall) : Outcome str :=
  Raise (mkExn LookupError [VStr (fb_url c)]).

Definition home (p : str) : str :=
  match p with
  | 126%N :: rest => u "/home/user" ++ rest
  | _ => p
  end.

(** A child that ignores its input. *)
Definition fixed (rc : Z) (out err : bytes) : Process :=
  fun _ => {| returncode := rc; stdout := out; stderr := err |}.

(** A child that answers [<line>\tXX\t<line>] for every input line. *)
Definition echo : Process :=
  fun input =>
    let text := map Byte.to_N input in
    let lines := match text with [] => [] | _ => split NL text end in
    {| returncode := 0;
       stdout := map byte_of_N
                   (unlines (map (fun l => l ++ [TAB] ++ u "XX" ++ [TAB] ++ l) lines));
       stderr := [] |}.

Definition always (p : Process) (c : PopenCall) : Outcome Process := Return p.

(** [TreeTagger(language='english')], abbreviation list unset. *)
Definition english : Object :=
  {| _abbr_list := Some None; _encoding := Some (u "utf-8");
     _treetagger_bin := Some (u "/usr/bin/tree-tagger-english") |}.

(** [TreeTagger(language='latin', encoding='latin-1')]. *)
Definition latin : Object :=
  {| _abbr_list := Some None; _encoding := Some (u "latin-1");
     _treetagger_bin := Some (u "/usr/bin/tree-tagger-latin") |}.

(** [TreeTagger(language='french', abbreviation_list='abbr.txt')]. *)
Definition french_abbr : Object :=
  {| _abbr_list := Some (Some (u "abbr.txt")); _encoding := Some (u "utf-8");
     _treetagger_bin := Some (u "/usr/bin/tree-tagger-french") |}.

Definition what_is_the_answer : list str :=
  [u "What"; u "is"; u "the"; u "answer"].

(** A child that prints nothing and succeeds. *)
Definition silent : Process := fixed 0 [] [].

(** Two children that fail, with different diagnostics. *)
Definition boom : Process := fixed 1 [] (b "boom").
Definition bang : Process := fixed 1 [] (b "bang").

(** [b'caf\xe9\tNOM\tcaf\xe9\n']: a record in Latin-1. *)
Definition cafe_latin1 : bytes :=
  b "caf" ++ [xe9; x09] ++ b "NOM" ++ [x09] ++ b "caf" ++ [xe9; x0a].

(** [b'\xc3\xa9\n']: in UTF-8 one character, in Latin-1 two. *)
Definition e_acute_utf8 : bytes := [xc3; xa9; x0a].

(** [b'a\tb\n\n'] *)
Definition two_newlines : bytes := b "a" ++ [x09] ++ b "b" ++ [x0a; x0a].

(** [b' a\tb\n'] *)
Definition leading_blank : bytes := b " a" ++ [x09] ++ b "b" ++ [x0a].

(** [b'a\tb\t\n']: the last field of the line is empty. *)
Definition trailing_tab : bytes := b "a" ++ [x09] ++ b "b" ++ [x09; x0a].

(** [b'\n\n']: two empty lines. *)
Definition blank_lines : bytes := [x0a; x0a].

End Sample.

(** Every character of [s] is below 128. *)
Definition is_ascii (s : str) : bool := forallb (fun c => c <? 128)%N s.

(** A character the strict UTF-8 encoder refuses: a surrogate, or a value
    past the last code point. *)
Definition utf8_refuses (c : N) : Prop :=
  (0xD800 <= c <= 0xDFFF)%N \/ (max_code_point < c)%N.

(** Text that [str.encode] refuses under one of the two encodings of the
    language table. *)
Definition unencodable (encoding : str) (text : str) : Prop :=
  (encoding = u "latin-1" /\ Exists (fun c => 256 <= c)%N text)
  \/ (encoding = u "utf-8" /\ Exists utf8_refuses text).

(** The text of a list of words or of one string, as [tag] sends it. *)
Definition text_of (sentences : Sentences) : option str :=
  match sentences with
  | OfList words => Some (join [NL] words)
  | OfStr text => Some text
  | OfBytes _ => None
  end.

(** A child that copies its input to its output. *)
Definition cat : Process :=
  fun input => {| returncode := 0; stdout := input; stderr := [] |}.

(** A world in which no program can be started. *)
Definition no_exec (c : PopenCall) : Outcome Process :=
  Raise (mkExn OSError [VStr (u "No such file or directory")]).

(* ================================================================== *)
(** ** Facts about the string operations *)
(* ================================================================== *)

Lemma str_eqb_eq (x y : str) : str_eqb x y = true <-> x = y.
Proof.
  revert y; induction x as [|c x IH]; intros [|d y]; simpl;
    try (split; [discriminate | congruence]); try tauto.
  rewrite andb_true_iff, N.eqb_eq, IH.
  split; [intros [-> ->]; reflexivity | intros H; injection H; auto].
Qed.

Lemma str_eqb_refl (x : str) : str_eqb x x = true.
Proof. apply str_eqb_eq; reflexivity. Qed.

Lemma list_contains_In (l : list str) (x : str) :
  list_contains l x = true <-> In x l.
Proof.
  unfold list_contains. rewrite existsb_exists. split.
  - intros (y & Hy & E). apply str_eqb_eq in E. subst. exact Hy.
  - intros H. exists x. split; [exact H | apply str_eqb_refl].
Qed.

Lemma split_not_nil (sep : N) (s : str) : split sep s <> [].
Proof.
  destruct s as [|c s]; simpl; [discriminate|].
  destruct (N.eqb c sep); [discriminate|].
  destruct (split sep s); discriminate.
Qed.

(** A string holds one more field than it holds separators. *)
Lemma split_length (sep : N) (s : str) :
  length (split sep s) = S (count_occ N.eq_dec s sep).
Proof.
  induction s as [|c s IH]; simpl; [reflexivity|].
  destruct (N.eq_dec c sep) as [E|E].
  - apply N.eqb_eq in E. rewrite E. simpl. rewrite IH. reflexivity.
  - apply N.eqb_neq in E. rewrite E.
    destruct (split sep s) eqn:S0; [now apply split_not_nil in S0|].
    simpl in *. exact IH.
Qed.

(** Splitting loses nothing: the fields joined by the separator are the
    string again. *)
Lemma join_split (sep : N) (s : str) : join [sep] (split sep s) = s.
Proof.
  induction s as [|c s IH]; simpl; [reflexivity|].
  destruct (N.eqb c sep) eqn:E.
  - apply N.eqb_eq in E. subst c.
    destruct (split sep s) eqn:S0; [now apply split_not_nil in S0|].
    simpl. f_equal. exact IH.
  - destruct (split sep s) as [|w ws] eqn:S0; [now apply split_not_nil in S0|].
    destruct ws; simpl in *; rewrite <- IH; reflexivity.
Qed.

Lemma split_no_sep (sep : N) (s : str) : ~ In sep s -> split sep s = [s].
Proof.
  induction s as [|c s IH]; simpl; intros H; [reflexivity|].
  destruct (N.eqb c sep) eqn:E.
  - apply N.eqb_eq in E. subst. tauto.
  - rewrite IH by tauto. reflexivity.
Qed.

Lemma split_app_sep (sep : N) (x rest : str) :
  ~ In sep x -> split sep (x ++ sep :: rest) = x :: split sep rest.
Proof.
  induction x as [|c x IH]; simpl; intros H.
  - rewrite N.eqb_refl. reflexivity.
  - destruct (N.eqb c sep) eqn:E.
    + apply N.eqb_eq in E. subst. tauto.
    + rewrite IH by tauto. reflexivity.
Qed.

(** Joining separator-free fields and splitting again gives the fields. *)
Lemma split_join (sep : N) (xs : list str) :
  xs <> [] -> Forall (fun x => ~ In sep x) xs -> split sep (join [sep] xs) = xs.
Proof.
  induction xs as [|x xs IH]; intros Hne Hall; [congruence|].
  inversion Hall as [|? ? Hx Hxs]; subst.
  destruct xs as [|y ys].
  - simpl. apply split_no_sep. exact Hx.
  - change (join [sep] (x :: y :: ys)) with (x ++ sep :: join [sep] (y :: ys)).
    rewrite split_app_sep by exact Hx.
    rewrite IH; [reflexivity | discriminate | exact Hxs].
Qed.

Lemma tagged_sentences_of_map (lines : list str) :
  tagged_sentences_of lines = map (split TAB) lines.
Proof.
  unfold tagged_sentences_of.
  assert (G : forall acc, fold_left
            (fun tagged_sentences tagged_word =>
               tagged_sentences ++ [split TAB tagged_word]) lines acc
          = acc ++ map (split TAB) lines).
  { induction lines as [|l lines IH]; intros acc; simpl.
    - now rewrite app_nil_r.
    - rewrite IH, <- app_assoc. reflexivity. }
  apply G.
Qed.

(* ------------------------------------------------------------------ *)
(** *** [strip] *)

Lemma isspace_NL : isspace NL = true.
Proof. reflexivity. Qed.

Lemma isspace_TAB : isspace TAB = true.
Proof. reflexivity. Qed.

Lemma lstrip_no_space (s : str) : begins_with_space s = false -> lstrip s = s.
Proof. destruct s as [|c s]; simpl; [reflexivity|]. intros ->. reflexivity. Qed.

Lemma rstrip_snoc (s : str) (c : N) :
  rstrip (s ++ [c]) = if isspace c then rstrip s else s ++ [c].
Proof.
  unfold rstrip. rewrite rev_app_distr. simpl.
  destruct (isspace c); [reflexivity|].
  simpl. rewrite rev_involutive. reflexivity.
Qed.

Lemma rstrip_no_space (s : str) : ends_with_space s = false -> rstrip s = s.
Proof.
  unfold ends_with_space, rstrip. intros H.
  rewrite lstrip_no_space by exact H. apply rev_involutive.
Qed.

Lemma strip_no_space (s : str) :
  begins_with_space s = false -> ends_with_space s = false -> strip s = s.
Proof.
  intros H1 H2. unfold strip.
  rewrite lstrip_no_space by exact H1. apply rstrip_no_space. exact H2.
Qed.

Lemma lstrip_app (l r : str) :
  has_nonspace l = true -> lstrip (l ++ r) = lstrip l ++ r.
Proof.
  induction l as [|c l IH]; simpl; [discriminate|].
  destruct (isspace c); simpl; [exact IH | reflexivity].
Qed.

Lemma has_nonspace_rev (l : str) : has_nonspace (rev l) = has_nonspace l.
Proof.
  unfold has_nonspace. induction l as [|c l IH]; simpl; [reflexivity|].
  rewrite existsb_app, IH. simpl. rewrite orb_false_r. apply orb_comm.
Qed.

Lemma rstrip_app (r l : str) :
  has_nonspace l = true -> rstrip (r ++ l) = r ++ rstrip l.
Proof.
  intros H. unfold rstrip. rewrite rev_app_distr.
  rewrite lstrip_app by (now rewrite has_nonspace_rev).
  rewrite rev_app_distr, rev_involutive. reflexivity.
Qed.

Lemma has_nonspace_app_r (r l : str) :
  has_nonspace l = true -> has_nonspace (r ++ l) = true.
Proof.
  unfold has_nonspace. intros H. rewrite existsb_app, H. apply orb_true_r.
Qed.

Lemma has_nonspace_lstrip (l : str) : has_nonspace (lstrip l) = has_nonspace l.
Proof.
  unfold has_nonspace. induction l as [|c l IH]; simpl; [reflexivity|].
  destruct (isspace c) eqn:E; simpl; [exact IH | now rewrite E].
Qed.

Lemma lstrip_incl (l : str) (c : N) : In c (lstrip l) -> In c l.
Proof.
  induction l as [|d l IH]; simpl; [tauto|].
  destruct (isspace d); simpl; tauto.
Qed.

Lemma rstrip_incl (l : str) (c : N) : In c (rstrip l) -> In c l.
Proof.
  unfold rstrip. intros H. apply in_rev in H. apply lstrip_incl in H.
  now apply in_rev in H.
Qed.

(** Where the text left by trimming one newline has no whitespace at
    either end, [strip] removes that newline and nothing else. *)
Lemma strip_remove_one_trailing_newline (s : str) :
  begins_with_space (remove_one_trailing_newline s) = false ->
  ends_with_space (remove_one_trailing_newline s) = false ->
  strip s = remove_one_trailing_newline s.
Proof.
  unfold remove_one_trailing_newline.
  destruct (rev s) as [|c r] eqn:R.
  - intros _ _. apply (f_equal (@rev N)) in R. rewrite rev_involutive in R.
    subst s. reflexivity.
  - assert (S0 : s = rev r ++ [c]).
    { apply (f_equal (@rev N)) in R. rewrite rev_involutive in R. exact R. }
    destruct (N.eqb c NL) eqn:E.
    + apply N.eqb_eq in E. subst c. intros H1 H2. subst s. unfold strip.
      destruct (rev r) as [|d t] eqn:T; [reflexivity|].
      simpl in H1.
      change ((d :: t) ++ [NL]) with (d :: t ++ [NL]).
      simpl lstrip. rewrite H1.
      change (d :: t ++ [NL]) with ((d :: t) ++ [NL]).
      rewrite rstrip_snoc, isspace_NL. apply rstrip_no_space. exact H2.
    + intros H1 H2. apply strip_no_space; assumption.
Qed.

(* ------------------------------------------------------------------ *)
(** *** Lines *)

Lemma unlines_join (lines : list str) :
  lines <> [] -> unlines lines = join [NL] lines ++ [NL].
Proof.
  unfold unlines.
  induction lines as [|x rest IH]; intros H; [congruence|].
  destruct rest as [|y rest'].
  - simpl. now rewrite app_nil_r.
  - change (join [NL] (x :: y :: rest')) with (x ++ [NL] ++ join [NL] (y :: rest')).
    simpl map. simpl concat. simpl in IH. rewrite IH by discriminate.
    now rewrite <- !app_assoc.
Qed.

Lemma lstrip_join (lines : list str) :
  has_nonspace (hd [] lines) = true ->
  lstrip (join [NL] lines) = join [NL] (map_first lstrip lines).
Proof.
  destruct lines as [|x [|y rest]]; simpl; intros H; try reflexivity.
  apply lstrip_app. exact H.
Qed.

Lemma has_nonspace_join (lines : list str) :
  has_nonspace (last lines []) = true -> has_nonspace (join [NL] lines) = true.
Proof.
  induction lines as [|x rest IH]; [discriminate|].
  destruct rest as [|y rest']; [simpl; auto|].
  intros H.
  change (join [NL] (x :: y :: rest')) with (x ++ [NL] ++ join [NL] (y :: rest')).
  apply has_nonspace_app_r, has_nonspace_app_r, IH. exact H.
Qed.

Lemma rstrip_join (lines : list str) :
  has_nonspace (last lines []) = true ->
  rstrip (join [NL] lines) = join [NL] (map_last rstrip lines).
Proof.
  induction lines as [|x rest IH]; [discriminate|].
  destruct rest as [|y rest']; [reflexivity|].
  intros H.
  change (join [NL] (x :: y :: rest')) with (x ++ [NL] ++ join [NL] (y :: rest')).
  rewrite app_assoc, rstrip_app by (apply has_nonspace_join; exact H).
  rewrite IH by exact H.
  change (map_last rstrip (x :: y :: rest')) with (x :: map_last rstrip (y :: rest')).
  destruct (map_last rstrip (y :: rest')) eqn:ML.
  - destruct rest'; discriminate.
  - simpl. now rewrite <- app_assoc.
Qed.

Lemma last_map_first (f : str -> str) (lines : list str) :
  last (map_first f lines) [] =
  match lines with
  | [x] => f x
  | _ => last lines []
  end.
Proof. destruct lines as [|x [|y rest]]; reflexivity. Qed.

Lemma map_last_length {A} (f : A -> A) (l : list A) :
  length (map_last f l) = length l.
Proof.
  induction l as [|x [|y r] IH]; simpl in *; auto.
Qed.

Lemma trim_ends_length (lines : list str) :
  length (trim_ends lines) = length lines.
Proof.
  unfold trim_ends. rewrite map_last_length. destruct lines; reflexivity.
Qed.

Lemma map_last_Forall {A} (P : A -> Prop) (f : A -> A) (l : list A) :
  (forall x, P x -> P (f x)) -> Forall P l -> Forall P (map_last f l).
Proof.
  intros Hf. induction l as [|x [|y r] IH]; intros H; simpl.
  - constructor.
  - inversion H; subst. constructor; auto.
  - inversion H; subst. constructor; auto.
Qed.

Lemma trim_ends_newline_free (lines : list str) :
  Forall newline_free lines -> Forall newline_free (trim_ends lines).
Proof.
  intros H. unfold trim_ends. apply map_last_Forall.
  - unfold newline_free. intros x Hx Hin. apply Hx. now apply rstrip_incl.
  - destruct lines as [|x rest]; simpl; [constructor|].
    inversion H; subst. constructor; [|assumption].
    unfold newline_free in *. intros Hin. now apply lstrip_incl in Hin.
Qed.

(** [strip] of newline-terminated lines, the first and the last of which
    hold a character that is not whitespace: only the two ends change. *)
Lemma strip_unlines (lines : list str) :
  has_nonspace (hd [] lines) = true ->
  has_nonspace (last lines []) = true ->
  strip (unlines lines) = join [NL] (trim_ends lines).
Proof.
  intros Hh Hl.
  assert (Hne : lines <> []) by (destruct lines; [discriminate | discriminate]).
  rewrite unlines_join by exact Hne. unfold strip, trim_ends.
  rewrite lstrip_app by (apply has_nonspace_join; exact Hl).
  rewrite rstrip_snoc, isspace_NL, lstrip_join by exact Hh.
  apply rstrip_join. rewrite last_map_first.
  destruct lines as [|x [|y r]]; try exact Hl.
  rewrite has_nonspace_lstrip. exact Hl.
Qed.

Lemma split_strip_unlines (lines : list str) :
  Forall newline_free lines ->
  has_nonspace (hd [] lines) = true ->
  has_nonspace (last lines []) = true ->
  split NL (strip (unlines lines)) = trim_ends lines.
Proof.
  intros Hnl Hh Hl. rewrite strip_unlines by assumption.
  apply split_join.
  - intros E. apply (f_equal (@length str)) in E. rewrite trim_ends_length in E.
    destruct lines; [discriminate | discriminate].
  - apply trim_ends_newline_free. exact Hnl.
Qed.

(* ================================================================== *)
(** ** One call of [tag], path by path *)
(* ================================================================== *)

Ltac run_monad :=
  unfold tag, Popen, communicate, print, call_find_binary, getattr, setattr,
    emit, bind, ret, raise, lift; simpl.

(** The whole of [tag] on an object whose three attributes are set. *)
Lemma tag_eq (spawn : PopenCall -> Outcome Process) (sentences : Sentences)
    (o : Object) (log : list Event) (enc : str) (abbr : option str) (bin : str) :
  _encoding o = Some enc -> _abbr_list o = Some abbr ->
  _treetagger_bin o = Some bin ->
  tag spawn sentences {| self := o; trace := log |} =
  match prepare_input enc sentences with
  | Raise e => (Raise e, {| self := o; trace := log |})
  | Return input =>
      let c := popen_call bin abbr in
      match spawn c with
      | Raise e => (Raise e, {| self := o; trace := log ++ [EvPopen c] |})
      | Return p =>
          let log' := (log ++ [EvPopen c]) ++ [EvCommunicate input] in
          match input with
          | VBytes x => after_communicate enc (p x) o log'
          | VNone => after_communicate enc (p []) o log'
          | VStr _ =>
              (Raise (mkExn TypeError
                        [VStr (u "a bytes-like object is required, not 'str'")]),
               {| self := o; trace := log' |})
          end
      end
  end.
Proof.
  intros He Ha Hb. run_monad. rewrite He.
  destruct (prepare_input enc sentences) as [input|e]; [|reflexivity].
  cbn [self trace]. rewrite Ha. unfold popen_call, after_communicate.
  destruct abbr as [a|]; cbn [self trace]; rewrite Hb; cbn [self trace];
    (destruct (spawn _) as [p|e]; [|reflexivity]);
    destruct input as [|s|x]; cbn [self trace]; try reflexivity;
    destruct (negb (returncode _ =? 0)%Z); cbn [self trace]; try reflexivity;
    unfold decode_output, tUoB3;
    destruct (bytes_decode _ _); reflexivity.
Qed.

Lemma after_communicate_trace (enc : str) (done : Completed) (o : Object)
    (log : list Event) :
  exists rest, trace (snd (after_communicate enc done o log)) = log ++ rest.
Proof.
  unfold after_communicate. destruct (negb (returncode done =? 0)%Z); simpl.
  - eexists. reflexivity.
  - exists []. now rewrite app_nil_r.
Qed.

Lemma after_communicate_self (enc : str) (done : Completed) (o : Object)
    (log : list Event) :
  self (snd (after_communicate enc done o log)) = o.
Proof.
  unfold after_communicate. destruct (negb (returncode done =? 0)%Z); reflexivity.
Qed.

(** A call on a fully initialised object whose input encodes and whose
    child starts. *)
Lemma run_tag_finished (spawn : PopenCall -> Outcome Process) (o : Object)
    (sentences : Sentences) (enc : str) (abbr : option str) (bin : str)
    (x : bytes) (p : Process) :
  _encoding o = Some enc -> _abbr_list o = Some abbr ->
  _treetagger_bin o = Some bin ->
  prepare_input enc sentences = Return (VBytes x) ->
  spawn (popen_call bin abbr) = Return p ->
  run_tag spawn o sentences =
  after_communicate enc (p x) o
    [EvPopen (popen_call bin abbr); EvCommunicate (VBytes x)].
Proof.
  intros He Ha Hb Hi Hs. unfold run_tag.
  rewrite (tag_eq spawn sentences o [] He Ha Hb), Hi. simpl. rewrite Hs.
  reflexivity.
Qed.

(** Reading the log backwards: a [Popen] followed by a [communicate] means
    the object was initialised and the input was prepared. *)
Lemma events_inv (spawn : PopenCall -> Outcome Process) (o : Object)
    (sentences : Sentences) (c : PopenCall) (v : PyVal) (rest : list Event) :
  events_of spawn o sentences = EvPopen c :: EvCommunicate v :: rest ->
  exists enc abbr bin,
    _encoding o = Some enc /\ _abbr_list o = Some abbr
    /\ _treetagger_bin o = Some bin
    /\ prepare_input enc sentences = Return v
    /\ c = popen_call bin abbr.
Proof.
  unfold events_of, run_tag.
  destruct o as [[abbr|] [enc|] [bin|]].
  - rewrite (tag_eq spawn sentences _ [] (enc:=enc) (abbr:=abbr) (bin:=bin))
      by reflexivity.
    destruct (prepare_input enc sentences) as [input|e] eqn:Hi;
      [|simpl; intros H0; inversion H0].
    cbn zeta. destruct (spawn (popen_call bin abbr)) as [p|e];
      [|simpl; intros H0; inversion H0].
    intros H.
    assert (G : exists r, EvPopen (popen_call bin abbr) :: EvCommunicate input :: r
                          = EvPopen c :: EvCommunicate v :: rest).
    { destruct input as [|s|x]; simpl in H;
        try (match type of H with
             | trace (snd (after_communicate ?e ?d ?o ?l)) = _ =>
                 destruct (after_communicate_trace e d o l) as [r Hr];
                 rewrite Hr in H
             end);
        eexists; exact H. }
    destruct G as [r G]. inversion G; subst.
    exists enc, abbr, bin. simpl. auto.
  - run_monad. destruct (prepare_input enc sentences); [destruct abbr|];
      simpl; intros H0; inversion H0.
  - run_monad. intros H0; inversion H0.
  - run_monad. intros H0; inversion H0.
  - run_monad. destruct (prepare_input enc sentences); simpl;
      intros H0; inversion H0.
  - run_monad. destruct (prepare_input enc sentences); simpl;
      intros H0; inversion H0.
  - run_monad. intros H0; inversion H0.
  - run_monad. intros H0; inversion H0.
Qed.

Lemma child_finished_inv (spawn : PopenCall -> Outcome Process) (o : Object)
    (sentences : Sentences) (done : Completed) :
  child_finished spawn o sentences done ->
  exists enc abbr bin x p,
    _encoding o = Some enc /\ _abbr_list o = Some abbr
    /\ _treetagger_bin o = Some bin
    /\ prepare_input enc sentences = Return (VBytes x)
    /\ spawn (popen_call bin abbr) = Return p
    /\ p x = done.
Proof.
  intros (c & x & p & rest & Hev & Hs & Hd).
  destruct (events_inv _ _ _ Hev) as (enc & abbr & bin & He & Ha & Hb & Hi & ->).
  exists enc, abbr, bin, x, p. auto 7.
Qed.

Lemma child_finished_intro (spawn : PopenCall -> Outcome Process) (o : Object)
    (sentences : Sentences) (enc : str) (abbr : option str) (bin : str)
    (x : bytes) (p : Process) :
  _encoding o = Some enc -> _abbr_list o = Some abbr ->
  _treetagger_bin o = Some bin ->
  prepare_input enc sentences = Return (VBytes x) ->
  spawn (popen_call bin abbr) = Return p ->
  child_finished spawn o sentences (p x).
Proof.
  intros He Ha Hb Hi Hs. unfold child_finished, events_of.
  rewrite (run_tag_finished spawn o sentences He Ha Hb Hi Hs).
  destruct (after_communicate_trace enc (p x) o
              [EvPopen (popen_call bin abbr); EvCommunicate (VBytes x)])
    as [r Hr].
  exists (popen_call bin abbr), x, p, r. rewrite Hr. auto.
Qed.

(** What a finished child leads to. *)
Lemma run_tag_child_finished (spawn : PopenCall -> Outcome Process) (o : Object)
    (sentences : Sentences) (done : Completed) :
  child_finished spawn o sentences done ->
  exists enc log,
    _encoding o = Some enc
    /\ run_tag spawn o sentences = after_communicate enc done o log.
Proof.
  intros H.
  destruct (child_finished_inv H)
    as (enc & abbr & bin & x & p & He & Ha & Hb & Hi & Hs & <-).
  exists enc. eexists. split; [exact He|].
  apply (run_tag_finished spawn o sentences He Ha Hb Hi Hs).
Qed.

(** The records of a call whose child exits with status zero and whose
    output decodes to [s]. *)
Lemma result_of_decoded (spawn : PopenCall -> Outcome Process) (o : Object)
    (sentences : Sentences) (done : Completed) (s : str) :
  child_finished spawn o sentences done ->
  returncode done = 0%Z ->
  decoded_output o done s ->
  result_of spawn o sentences = Return (map (split TAB) (split NL (strip s))).
Proof.
  intros Hc Hrc (enc & He & Hd).
  destruct (run_tag_child_finished Hc) as (enc' & log & He' & Hrun).
  rewrite He in He'. injection He' as <-.
  unfold result_of. rewrite Hrun. unfold after_communicate.
  rewrite Hrc. cbn [Z.eqb negb fst]. rewrite Hd. simpl.
  rewrite tagged_sentences_of_map. reflexivity.
Qed.

(* ================================================================== *)
(** ** The constructor *)
(* ================================================================== *)

Lemma dict_has_key_get {V} (d : dict V) (k : str) :
  dict_has_key d k = true <-> exists v, dict_get d k = Some v.
Proof.
  induction d as [|[k' v'] d IH]; simpl.
  - split; [discriminate | intros [v H]; discriminate].
  - destruct (str_eqb k k'); simpl.
    + split; [eauto | reflexivity].
    + exact IH.
Qed.

Lemma known_pair_table (language encoding : str) :
  known_pair language encoding = true <-> in_language_table language encoding.
Proof.
  unfold known_pair, in_language_table.
  destruct (dict_get _treetagger_languages encoding) as [langs|].
  - rewrite list_contains_In. split.
    + intros H. exists langs. auto.
    + intros (l & E & H). injection E as <-. exact H.
  - split; [discriminate | intros (l & E & _); discriminate].
Qed.

(** The constructor, path by path: an unknown pair raises before the
    search; a known pair runs the search once and keeps its answer. *)
Lemma TreeTagger_eq (find_binary : FindBinaryCall -> Outcome str)
    (expanduser : str -> str) (path_to_home : option str)
    (language encoding : str) (verbose : bool) (abbreviation_list : option str)
    (log : list Event) :
  TreeTagger find_binary expanduser path_to_home language encoding verbose
    abbreviation_list log =
  if known_pair language encoding then
    let c := find_binary_call expanduser path_to_home language verbose in
    match find_binary c with
    | Return bin =>
        (Return {| _abbr_list := Some abbreviation_list;
                   _encoding := Some encoding;
                   _treetagger_bin := Some bin |},
         log ++ [EvFindBinary c])
    | Raise e => (Raise e, log ++ [EvFindBinary c])
    end
  else (Raise lookup_failed, log).
Proof.
  unfold TreeTagger, __init__, known_pair, find_binary_call.
  unfold try_except, call_find_binary, getattr, setattr, emit, bind, ret,
    raise, lift, dict_getitem.
  cbn [self trace].
  destruct (dict_has_key _treetagger_languages encoding) eqn:K.
  - apply dict_has_key_get in K. destruct K as [langs K]. rewrite K.
    cbn [self trace].
    destruct (list_contains langs language); cbn [self trace].
    + destruct (str_eqb encoding (u "latin-1")) eqn:L.
      * apply str_eqb_eq in L. subst encoding. cbn [self trace].
        destruct (find_binary _); reflexivity.
      * cbn [self trace]. destruct (find_binary _); reflexivity.
    + reflexivity.
  - destruct (dict_get _treetagger_languages encoding) as [langs|] eqn:G.
    + assert (H : dict_has_key _treetagger_languages encoding = true)
        by (apply dict_has_key_get; eauto).
      congruence.
    + reflexivity.
Qed.

Lemma TreeTagger_success (find_binary : FindBinaryCall -> Outcome str)
    (expanduser : str -> str) (path_to_home : option str)
    (language encoding : str) (verbose : bool) (abbreviation_list : option str)
    (log log' : list Event) (o : Object) :
  TreeTagger find_binary expanduser path_to_home language encoding verbose
    abbreviation_list log = (Return o, log') ->
  known_pair language encoding = true
  /\ exists bin,
       find_binary (find_binary_call expanduser path_to_home language verbose)
       = Return bin
       /\ o = {| _abbr_list := Some abbreviation_list;
                 _encoding := Some encoding;
                 _treetagger_bin := Some bin |}.
Proof.
  rewrite TreeTagger_eq.
  destruct (known_pair language encoding); [|discriminate].
  cbn zeta.
  destruct (find_binary _) as [bin|e]; [|discriminate].
  intros H. injection H as <- _. split; [reflexivity|].
  exists bin. auto.
Qed.

Lemma known_pair_encoding (language encoding : str) :
  known_pair language encoding = true ->
  encoding = u "latin-1" \/ encoding = u "utf-8".
Proof.
  unfold known_pair, _treetagger_languages. cbn [dict_get].
  destruct (str_eqb encoding (u "latin-1")) eqn:L.
  - apply str_eqb_eq in L. auto.
  - destruct (str_eqb encoding (u "utf-8")) eqn:U.
    + apply str_eqb_eq in U. auto.
    + discriminate.
Qed.

(** The log of a call on an initialised object. *)
Lemma events_of_cases (spawn : PopenCall -> Outcome Process) (o : Object)
    (sentences : Sentences) (enc : str) (abbr : option str) (bin : str) :
  _encoding o = Some enc -> _abbr_list o = Some abbr ->
  _treetagger_bin o = Some bin ->
  match prepare_input enc sentences with
  | Raise _ => events_of spawn o sentences = []
  | Return input =>
      match spawn (popen_call bin abbr) with
      | Raise _ => events_of spawn o sentences = [EvPopen (popen_call bin abbr)]
      | Return p =>
          exists rest,
            events_of spawn o sentences
            = EvPopen (popen_call bin abbr) :: EvCommunicate input :: rest
            /\ (rest = [] \/ exists err, rest = [EvPrint (VBytes err)])
      end
  end.
Proof.
  intros He Ha Hb. unfold events_of, run_tag.
  rewrite (tag_eq spawn sentences o [] He Ha Hb).
  destruct (prepare_input enc sentences) as [input|e]; [|reflexivity].
  cbn zeta. destruct (spawn (popen_call bin abbr)) as [p|e]; [|reflexivity].
  assert (G : forall done,
    exists rest,
      trace (snd (after_communicate enc done o
                    (([] ++ [EvPopen (popen_call bin abbr)]) ++ [EvCommunicate input])))
      = EvPopen (popen_call bin abbr) :: EvCommunicate input :: rest
      /\ (rest = [] \/ exists err, rest = [EvPrint (VBytes err)])).
  { intros done. unfold after_communicate.
    destruct (negb (returncode done =? 0)%Z); simpl; eauto. }
  destruct input as [|s|x]; [apply G | | apply G].
  exists []. simpl. auto.
Qed.

(* ================================================================== *)
(** ** The claims *)
(* ================================================================== *)

(** C5. A (language, encoding) pair that is not in the language table (the
    encoding is no key of it, or the language is not in the list under
    that key) makes the constructor raise [LookupError], whatever the
    binary search would have answered; nothing is logged, so neither the
    search nor a child process was started. *)
Theorem C5_unknown_pair_raises_LookupError
    (find_binary : FindBinaryCall -> Outcome str) (expanduser : str -> str)
    (path_to_home : option str) (language encoding : str) (verbose : bool)
    (abbreviation_list : option str) (log : list Event) :
  ~ in_language_table language encoding ->
  TreeTagger find_binary expanduser path_to_home language encoding verbose
    abbreviation_list log
  = (Raise (mkExn LookupError
              [VStr (u "NLTK was unable to find the TreeTagger bin!")]), log).
Proof.
  intros H. rewrite TreeTagger_eq.
  destruct (known_pair language encoding) eqn:K; [|reflexivity].
  apply known_pair_table in K. contradiction.
Qed.

Lemma C5_witness :
  ~ in_language_table (u "klingon") (u "utf-8")
  /\ TreeTagger Sample.found Sample.home None (u "klingon") (u "utf-8") false
       None []
     = (Raise (mkExn LookupError
                 [VStr (u "NLTK was unable to find the TreeTagger bin!")]), [])
  /\ TreeTagger Sample.not_found Sample.home None (u "klingon") (u "utf-8")
       false None []
     = (Raise (mkExn LookupError
                 [VStr (u "NLTK was unable to find the TreeTagger bin!")]), []).
Proof.
  assert (H : ~ in_language_table (u "klingon") (u "utf-8")).
  { intros K. apply known_pair_table in K. vm_compute in K. discriminate K. }
  split; [exact H|]. split.
  - apply (C5_unknown_pair_raises_LookupError Sample.found Sample.home None
             false None [] H).
  - apply (C5_unknown_pair_raises_LookupError Sample.not_found Sample.home None
             false None [] H).
Defined.

(** C9. A [tag] call leaves the attributes of the object as they were:
    the binary path, the encoding and the abbreviation list are read and
    never assigned, whether the call returns or raises. *)
Theorem C9_tag_leaves_attributes (spawn : PopenCall -> Outcome Process)
    (sentences : Sentences) (st : State) :
  self (snd (tag spawn sentences st)) = self st.
Proof.
  destruct st as [o log].
  destruct o as [[abbr|] [enc|] [bin|]].
  - rewrite (tag_eq spawn sentences _ log (enc:=enc) (abbr:=abbr) (bin:=bin))
      by reflexivity.
    destruct (prepare_input enc sentences) as [input|e]; [|reflexivity].
    cbn zeta. destruct (spawn (popen_call bin abbr)) as [p|e]; [|reflexivity].
    destruct input; try apply after_communicate_self; reflexivity.
  - run_monad. destruct (prepare_input enc sentences); [destruct abbr|];
      reflexivity.
  - reflexivity.
  - reflexivity.
  - run_monad. destruct (prepare_input enc sentences); reflexivity.
  - run_monad. destruct (prepare_input enc sentences); reflexivity.
  - reflexivity.
  - reflexivity.
Qed.

(** Captured bytes are decoded by [tUoB3] with its default encoding. *)
Lemma decode_output_bytes (enc : str) (x : bytes) :
  decode_output enc (VBytes x) =
  match utf8_decode x with
  | Some s => Return (VStr s)
  | None => Raise (mkExn UnicodeDecodeError [VStr (u "utf-8"); VBytes x])
  end.
Proof.
  unfold decode_output, tUoB3, bytes_decode, tUoB3_default_encoding.
  change (str_eqb (u "utf-8") (u "utf-8")) with true. cbv iota.
  destruct (utf8_decode x); reflexivity.
Qed.

Lemma after_communicate_result (enc : str) (done : Completed) (o : Object)
    (log : list Event) :
  fst (after_communicate enc done o log) =
  if negb (returncode done =? 0)%Z then Raise command_failed
  else match utf8_decode (stdout done) with
       | Some s => Return (map (split TAB) (split NL (strip s)))
       | None =>
           Raise (mkExn UnicodeDecodeError
                    [VStr (u "utf-8"); VBytes (stdout done)])
       end.
Proof.
  unfold after_communicate. destruct (negb (returncode done =? 0)%Z);
    [reflexivity|].
  cbn [fst]. rewrite decode_output_bytes.
  destruct (utf8_decode (stdout done)); [|reflexivity].
  simpl. now rewrite tagged_sentences_of_map.
Qed.

Lemma records_not_nil (s : str) : map (split TAB) (split NL (strip s)) <> [].
Proof.
  destruct (split NL (strip s)) eqn:E; [now apply split_not_nil in E|].
  discriminate.
Qed.

(** C10. A [tag] call that returns, returns at least one record; a child
    that exits with status zero and prints nothing yields the single
    record [['']]. *)
Theorem C10_records_never_empty (spawn : PopenCall -> Outcome Process)
    (sentences : Sentences) :
  (forall (st : State) (records : list (list str)),
     fst (tag spawn sentences st) = Return records -> records <> [])
  /\ (forall (o : Object) (done : Completed),
        child_finished spawn o sentences done ->
        returncode done = 0%Z -> stdout done = [] ->
        result_of spawn o sentences = Return [[[]]]).
Proof.
  split.
  - intros [o log] records.
    destruct o as [[abbr|] [enc|] [bin|]].
    + rewrite (tag_eq spawn sentences _ log (enc:=enc) (abbr:=abbr) (bin:=bin))
        by reflexivity.
      destruct (prepare_input enc sentences) as [input|e]; [|discriminate].
      cbn zeta. destruct (spawn (popen_call bin abbr)) as [p|e]; [|discriminate].
      assert (G : forall done o' log',
                fst (after_communicate enc done o' log') = Return records ->
                records <> []).
      { intros done o' log'. rewrite after_communicate_result.
        destruct (negb (returncode done =? 0)%Z); [discriminate|].
        destruct (utf8_decode (stdout done)); [|discriminate].
        intros H. injection H as <-. apply records_not_nil. }
      destruct input; [apply G | discriminate | apply G].
    + run_monad. destruct (prepare_input enc sentences); [destruct abbr|];
        discriminate.
    + discriminate.
    + discriminate.
    + run_monad. destruct (prepare_input enc sentences); discriminate.
    + run_monad. destruct (prepare_input enc sentences); discriminate.
    + discriminate.
    + discriminate.
  - intros o done Hc Hrc Hout.
    destruct (run_tag_child_finished Hc) as (enc & log & He & Hrun).
    unfold result_of. rewrite Hrun, after_communicate_result, Hrc, Hout.
    reflexivity.
Qed.

Lemma C10_witness :
  child_finished (Sample.always Sample.silent) Sample.english (OfList [])
    (Sample.silent [])
  /\ result_of (Sample.always Sample.silent) Sample.english (OfList [])
     = Return [[[]]]
  /\ [[[]]] <> ([] : list (list str)).
Proof.
  assert (Hc : child_finished (Sample.always Sample.silent) Sample.english
                 (OfList []) (Sample.silent [])).
  { exists (popen_call (u "/usr/bin/tree-tagger-english") None), [],
      Sample.silent, []. vm_compute. auto. }
  destruct (C10_records_never_empty (Sample.always Sample.silent) (OfList []))
    as [Hne Hempty].
  split; [exact Hc|]. split.
  - apply (Hempty Sample.english (Sample.silent []) Hc);
      reflexivity.
  - apply (Hne {| self := Sample.english; trace := [] |}). reflexivity.
Defined.

(** C6, as the code has it. When the child of a [tag] call exits with a
    status other than zero, the call prints the captured standard error
    and raises [OSError('TreeTagger command failed!')]: no record list is
    returned, and the diagnostics are in the printed line, not in the
    exception. When the status is zero nothing is printed and no [OSError]
    is raised. *)
Theorem C6_nonzero_exit_raises_OSError (spawn : PopenCall -> Outcome Process)
    (o : Object) (sentences : Sentences) (done : Completed) :
  child_finished spawn o sentences done ->
  (returncode done <> 0%Z ->
     result_of spawn o sentences
     = Raise (mkExn OSError [VStr (u "TreeTagger command failed!")])
     /\ exists before,
          events_of spawn o sentences
          = before ++ [EvPrint (VBytes (stderr done))])
  /\ (returncode done = 0%Z ->
        (forall e, result_of spawn o sentences = Raise e ->
                   exc_class e <> OSError)
        /\ forall v, ~ In (EvPrint v) (events_of spawn o sentences)).
Proof.
  intros Hc.
  destruct (child_finished_inv Hc)
    as (enc & abbr & bin & x & p & He & Ha & Hb & Hi & Hs & <-).
  pose proof (run_tag_finished spawn o sentences He Ha Hb Hi Hs) as Hrun.
  unfold result_of, events_of. rewrite Hrun. split.
  - intros Hrc. apply Z.eqb_neq in Hrc.
    unfold after_communicate. rewrite Hrc. cbn [negb fst snd trace].
    split; [reflexivity|]. eexists. reflexivity.
  - intros Hrc. split.
    + intros e. rewrite after_communicate_result, Hrc. cbn [Z.eqb negb].
      destruct (utf8_decode (stdout (p x))); [discriminate|].
      intros H. injection H as <-. discriminate.
    + intros v. unfold after_communicate. rewrite Hrc.
      cbn [Z.eqb negb snd trace]. intros [H|[H|[]]]; discriminate H.
Qed.

Lemma C6_witness :
  child_finished (Sample.always Sample.boom) Sample.french_abbr
    (OfList Sample.what_is_the_answer)
    {| returncode := 1; stdout := []; stderr := b "boom" |}
  /\ result_of (Sample.always Sample.boom) Sample.french_abbr
       (OfList Sample.what_is_the_answer)
     = Raise (mkExn OSError [VStr (u "TreeTagger command failed!")])
  /\ exists before,
       events_of (Sample.always Sample.boom) Sample.french_abbr
         (OfList Sample.what_is_the_answer)
       = before ++ [EvPrint (VBytes (b "boom"))].
Proof.
  assert (Hc : child_finished (Sample.always Sample.boom) Sample.french_abbr
                 (OfList Sample.what_is_the_answer)
                 {| returncode := 1; stdout := []; stderr := b "boom" |}).
  { eexists _, _, Sample.boom, _. vm_compute. auto. }
  split; [exact Hc|].
  apply (C6_nonzero_exit_raises_OSError Hc). vm_compute. discriminate.
Defined.

(** C6, the claim as worded, fails: two children that exit with status 1
    and different standard-error text make [tag] raise one and the same
    exception, whose only argument is the fixed message. *)
Lemma C6_counterexample :
  child_finished (Sample.always Sample.boom) Sample.english (OfList [])
    {| returncode := 1; stdout := []; stderr := b "boom" |}
  /\ child_finished (Sample.always Sample.bang) Sample.english (OfList [])
       {| returncode := 1; stdout := []; stderr := b "bang" |}
  /\ result_of (Sample.always Sample.boom) Sample.english (OfList [])
     = result_of (Sample.always Sample.bang) Sample.english (OfList [])
  /\ result_of (Sample.always Sample.boom) Sample.english (OfList [])
     = Raise (mkExn OSError [VStr (u "TreeTagger command failed!")])
  /\ b "boom" <> b "bang".
Proof.
  split; [|split; [|split; [|split]]].
  - eexists _, _, Sample.boom, _. vm_compute. auto.
  - eexists _, _, Sample.bang, _. vm_compute. auto.
  - reflexivity.
  - reflexivity.
  - discriminate.
Qed.



Lemma known_pair_truthy (language encoding : str) :
  known_pair language encoding = true -> truthy encoding = true.
Proof.
  intros H. destruct (known_pair_encoding _ _ H) as [-> | ->]; reflexivity.
Qed.

(** The prepared input, once the encoding is known to be non-empty. *)
Lemma prepare_input_truthy (encoding : str) (sentences : Sentences) :
  truthy encoding = true ->
  prepare_input encoding sentences =
  match sentences with
  | OfList words =>
      match str_encode (join [NL] words) encoding with
      | Return x => Return (VBytes x)
      | Raise e => Raise e
      end
  | OfStr text =>
      match str_encode text encoding with
      | Return x => Return (VBytes x)
      | Raise e => Raise e
      end
  | OfBytes raw => Return (VBytes raw)
  end.
Proof.
  intros H. unfold prepare_input. destruct sentences; rewrite ?H; reflexivity.
Qed.

(** C8. What a [tag] call writes to its child. On a constructed object
    the input is turned into bytes: for a list of words, the words joined
    by single newlines and encoded with the encoding given to the
    constructor; for one string, that string so encoded; for bytes, the
    bytes themselves. Whenever these bytes exist and the child starts,
    the call starts the child and writes exactly these bytes to it, once,
    and the child runs on them; the call writes nothing else. *)
Theorem C8_bytes_written_to_child
    (find_binary : FindBinaryCall -> Outcome str) (expanduser : str -> str)
    (spawn : PopenCall -> Outcome Process)
    (path_to_home : option str) (language encoding : str) (verbose : bool)
    (abbreviation_list : option str) (log log' : list Event) (o : Object)
    (sentences : Sentences) :
  TreeTagger find_binary expanduser path_to_home language encoding verbose
    abbreviation_list log = (Return o, log') ->
  (encoding = u "latin-1" \/ encoding = u "utf-8")
  /\ (exists resolved_binary_path,
        find_binary (find_binary_call expanduser path_to_home language verbose)
        = Return resolved_binary_path
        /\ forall (x : bytes) (p : Process),
             match sentences with
             | OfList words => str_encode (join [NL] words) encoding
             | OfStr text => str_encode text encoding
             | OfBytes raw => Return raw
             end = Return x ->
             spawn (popen_call resolved_binary_path abbreviation_list)
             = Return p ->
             events_of spawn o sentences
             = EvPopen (popen_call resolved_binary_path abbreviation_list)
               :: EvCommunicate (VBytes x)
               :: (if negb (returncode (p x) =? 0)%Z
                   then [EvPrint (VBytes (stderr (p x)))]
                   else [])
             /\ child_finished spawn o sentences (p x))
  /\ (forall v, In (EvCommunicate v) (events_of spawn o sentences) ->
        match sentences with
        | OfList words =>
            exists x, str_encode (join [NL] words) encoding = Return x
                      /\ v = VBytes x
        | OfStr text =>
            exists x, str_encode text encoding = Return x /\ v = VBytes x
        | OfBytes raw => v = VBytes raw
        end).
Proof.
  intros H. apply TreeTagger_success in H.
  destruct H as (K & bin & Hf & ->).
  split; [exact (known_pair_encoding _ _ K)|].
  pose proof (known_pair_truthy _ _ K) as T.
  split.
  - exists bin. split; [exact Hf|]. intros x p Hx Hs.
    assert (Hi : prepare_input encoding sentences = Return (VBytes x)).
    { rewrite (prepare_input_truthy encoding sentences T).
      destruct sentences as [words|text|raw];
        [rewrite Hx | rewrite Hx | injection Hx as ->]; reflexivity. }
    split.
    + unfold events_of.
      rewrite (run_tag_finished spawn
                 {| _abbr_list := Some abbreviation_list;
                    _encoding := Some encoding; _treetagger_bin := Some bin |}
                 sentences eq_refl eq_refl eq_refl Hi Hs).
      unfold after_communicate.
      destruct (negb (returncode (p x) =? 0)%Z); reflexivity.
    + exact (child_finished_intro spawn
               {| _abbr_list := Some abbreviation_list;
                  _encoding := Some encoding; _treetagger_bin := Some bin |}
               sentences eq_refl eq_refl eq_refl Hi Hs).
  - pose proof (events_of_cases spawn
                  {| _abbr_list := Some abbreviation_list;
                     _encoding := Some encoding; _treetagger_bin := Some bin |}
                  sentences eq_refl eq_refl eq_refl) as Hev.
    rewrite (prepare_input_truthy encoding sentences T) in Hev.
    assert (G : forall (input : PyVal) (rest : list Event) (v : PyVal),
              (rest = [] \/ exists err, rest = [EvPrint (VBytes err)]) ->
              In (EvCommunicate v)
                (EvPopen (popen_call bin abbreviation_list)
                 :: EvCommunicate input :: rest) ->
              v = input).
    { intros input rest v Hrest [H|[H|H]];
        [discriminate H | now injection H |].
      destruct Hrest as [->|[err ->]]; [destruct H|].
      destruct H as [H|[]]; discriminate H. }
    intros v Hin.
    destruct sentences as [words|text|raw].
    + destruct (str_encode (join [NL] words) encoding) as [x|e].
      * destruct (spawn (popen_call bin abbreviation_list)) as [p|e].
        -- destruct Hev as (rest & Hev & Hrest). rewrite Hev in Hin.
           exists x. split; [reflexivity|]. exact (G _ _ _ Hrest Hin).
        -- rewrite Hev in Hin. destruct Hin as [H|[]]; discriminate H.
      * rewrite Hev in Hin. destruct Hin.
    + destruct (str_encode text encoding) as [x|e].
      * destruct (spawn (popen_call bin abbreviation_list)) as [p|e].
        -- destruct Hev as (rest & Hev & Hrest). rewrite Hev in Hin.
           exists x. split; [reflexivity|]. exact (G _ _ _ Hrest Hin).
        -- rewrite Hev in Hin. destruct Hin as [H|[]]; discriminate H.
      * rewrite Hev in Hin. destruct Hin.
    + destruct (spawn (popen_call bin abbreviation_list)) as [p|e].
      * destruct Hev as (rest & Hev & Hrest). rewrite Hev in Hin.
        exact (G _ _ _ Hrest Hin).
      * rewrite Hev in Hin. destruct Hin as [H|[]]; discriminate H.
Qed.

Lemma C8_witness :
  TreeTagger Sample.found Sample.home None (u "english") (u "utf-8") false
    None []
  = (Return Sample.english,
     [EvFindBinary (find_binary_call Sample.home None (u "english") false)])
  /\ str_encode (join [NL] Sample.what_is_the_answer) (u "utf-8")
     = Return (b "What" ++ [x0a] ++ b "is" ++ [x0a] ++ b "the" ++ [x0a]
               ++ b "answer")
  /\ events_of (Sample.always Sample.echo) Sample.english
       (OfList Sample.what_is_the_answer)
     = [ EvPopen (popen_call (u "/usr/bin/tree-tagger-english") None);
         EvCommunicate
           (VBytes (b "What" ++ [x0a] ++ b "is" ++ [x0a] ++ b "the" ++ [x0a]
                    ++ b "answer")) ]
  /\ child_finished (Sample.always Sample.echo) Sample.english
       (OfList Sample.what_is_the_answer)
       (Sample.echo (b "What" ++ [x0a] ++ b "is" ++ [x0a] ++ b "the" ++ [x0a]
                     ++ b "answer")).
Proof.
  assert (H : TreeTagger Sample.found Sample.home None (u "english") (u "utf-8")
                false None []
              = (Return Sample.english,
                 [EvFindBinary
                    (find_binary_call Sample.home None (u "english") false)]))
    by reflexivity.
  assert (E : str_encode (join [NL] Sample.what_is_the_answer) (u "utf-8")
              = Return (b "What" ++ [x0a] ++ b "is" ++ [x0a] ++ b "the"
                        ++ [x0a] ++ b "answer")) by reflexivity.
  split; [exact H|]. split; [exact E|].
  destruct (C8_bytes_written_to_child Sample.found Sample.home
              (Sample.always Sample.echo) None (u "english") (u "utf-8") false
              None [] (OfList Sample.what_is_the_answer) H)
    as (_ & (bin & Hbin & W) & _).
  injection Hbin as <-.
  exact (W _ Sample.echo E eq_refl).
Defined.

(** The example of the specification: four words through a child that
    echoes [<token>\tXX\t<token>] per line. *)
Example tag_what_is_the_answer :
  run_tag (Sample.always Sample.echo) Sample.english
    (OfList Sample.what_is_the_answer)
  = (Return [ [u "What"; u "XX"; u "What"]; [u "is"; u "XX"; u "is"];
              [u "the"; u "XX"; u "the"]; [u "answer"; u "XX"; u "answer"] ],
     {| self := Sample.english;
        trace := [ EvPopen (popen_call (u "/usr/bin/tree-tagger-english") None);
                   EvCommunicate
                     (VBytes (b "What" ++ [x0a] ++ b "is" ++ [x0a] ++ b "the"
                              ++ [x0a] ++ b "answer")) ] |}).
Proof. reflexivity. Qed.

(** C1, at a failing input. The object is built for Latin-1. A child
    answers with the Latin-1 bytes of [café\tNOM\tcafé]: with the
    configured encoding they decode to that record, but [tag] raises
    [UnicodeDecodeError], because the captured bytes go through [tUoB3]
    with its default, UTF-8. A child that answers with the bytes C3 A9 gets
    one character back where Latin-1 has two. The configured encoding never
    reaches the decoding of captured bytes. *)
Theorem C1_captured_bytes_are_decoded_as_utf8 :
  TreeTagger Sample.found Sample.home None (u "latin") (u "latin-1") false
    None []
  = (Return Sample.latin,
     [EvFindBinary (find_binary_call Sample.home None (u "latin") false)])
  /\ bytes_decode Sample.cafe_latin1 (u "latin-1")
     = Return ([99; 97; 102; 233; 9; 78; 79; 77; 9; 99; 97; 102; 233; 10]%N)
  /\ result_of (Sample.always (Sample.fixed 0 Sample.cafe_latin1 []))
       Sample.latin (OfList [[99; 97; 102; 233]%N])
     = Raise (mkExn UnicodeDecodeError
                [VStr (u "utf-8"); VBytes Sample.cafe_latin1])
  /\ bytes_decode Sample.e_acute_utf8 (u "latin-1") = Return [195; 169; 10]%N
  /\ result_of (Sample.always (Sample.fixed 0 Sample.e_acute_utf8 []))
       Sample.latin (OfList [[233]%N])
     = Return [[[233%N]]]
  /\ (forall (encoding : str) (captured : bytes),
        decode_output encoding (VBytes captured)
        = match bytes_decode captured (u "utf-8") with
          | Return s => Return (VStr s)
          | Raise e => Raise e
          end).
Proof.
  repeat split; try reflexivity.
Qed.

(** C2, as the code has it. The decoded output loses all leading and all
    trailing whitespace ([strip]) and is then cut at newlines, each line at
    tabs. When the text left by trimming one trailing newline neither
    begins nor ends with whitespace, that is the same as trimming exactly
    that newline. *)
Theorem C2_records_are_cut_after_strip (spawn : PopenCall -> Outcome Process)
    (o : Object) (sentences : Sentences) (done : Completed) (s : str) :
  child_finished spawn o sentences done ->
  returncode done = 0%Z ->
  decoded_output o done s ->
  result_of spawn o sentences = Return (map (split TAB) (split NL (strip s)))
  /\ (begins_with_space (remove_one_trailing_newline s) = false ->
      ends_with_space (remove_one_trailing_newline s) = false ->
      result_of spawn o sentences
      = Return (map (split TAB) (split NL (remove_one_trailing_newline s)))).
Proof.
  intros Hc Hrc Hd.
  pose proof (result_of_decoded Hc Hrc Hd) as R.
  split; [exact R|].
  intros Hb He. rewrite R, (strip_remove_one_trailing_newline s Hb He).
  reflexivity.
Qed.

Lemma C2_witness :
  child_finished (Sample.always Sample.echo) Sample.english
    (OfList [u "What"]) (Sample.echo (b "What"))
  /\ result_of (Sample.always Sample.echo) Sample.english (OfList [u "What"])
     = Return [[u "What"; u "XX"; u "What"]]
  /\ result_of (Sample.always Sample.echo) Sample.english (OfList [u "What"])
     = Return (map (split TAB)
                 (split NL
                    (remove_one_trailing_newline
                       (u "What" ++ [TAB] ++ u "XX" ++ [TAB] ++ u "What" ++ [NL])))).
Proof.
  assert (Hc : child_finished (Sample.always Sample.echo) Sample.english
                 (OfList [u "What"]) (Sample.echo (b "What"))).
  { eexists _, _, Sample.echo, _. vm_compute. auto. }
  assert (Hd : decoded_output Sample.english (Sample.echo (b "What"))
                 (u "What" ++ [TAB] ++ u "XX" ++ [TAB] ++ u "What" ++ [NL])).
  { exists (u "utf-8"). split; reflexivity. }
  destruct (C2_records_are_cut_after_strip Hc eq_refl Hd) as [R1 R2].
  split; [exact Hc|]. split; [exact R1|].
  apply R2; reflexivity.
Defined.

(** C2, the claim as worded, fails. A child prints [a\tb\n\n]: trimming one
    newline leaves an empty second line, but [tag] returns the single
    record [['a', 'b']]. A child prints [ a\tb\n]: the leading blank of the
    first line is gone from the record. *)
Lemma C2_counterexample :
  (child_finished (Sample.always (Sample.fixed 0 Sample.two_newlines []))
     Sample.english (OfList [u "a"])
     {| returncode := 0; stdout := Sample.two_newlines; stderr := [] |}
   /\ decoded_output Sample.english
        {| returncode := 0; stdout := Sample.two_newlines; stderr := [] |}
        (u "a" ++ [TAB] ++ u "b" ++ [NL; NL])
   /\ spec_records (u "a" ++ [TAB] ++ u "b" ++ [NL; NL])
      = [[u "a"; u "b"]; [[]]]
   /\ result_of (Sample.always (Sample.fixed 0 Sample.two_newlines []))
        Sample.english (OfList [u "a"])
      = Return [[u "a"; u "b"]]
   /\ result_of (Sample.always (Sample.fixed 0 Sample.two_newlines []))
        Sample.english (OfList [u "a"])
      <> Return (spec_records (u "a" ++ [TAB] ++ u "b" ++ [NL; NL])))
  /\ (child_finished (Sample.always (Sample.fixed 0 Sample.leading_blank []))
        Sample.english (OfList [u "a"])
        {| returncode := 0; stdout := Sample.leading_blank; stderr := [] |}
      /\ decoded_output Sample.english
           {| returncode := 0; stdout := Sample.leading_blank; stderr := [] |}
           (u " a" ++ [TAB] ++ u "b" ++ [NL])
      /\ spec_records (u " a" ++ [TAB] ++ u "b" ++ [NL]) = [[u " a"; u "b"]]
      /\ result_of (Sample.always (Sample.fixed 0 Sample.leading_blank []))
           Sample.english (OfList [u "a"])
         = Return [[u "a"; u "b"]]
      /\ result_of (Sample.always (Sample.fixed 0 Sample.leading_blank []))
           Sample.english (OfList [u "a"])
         <> Return (spec_records (u " a" ++ [TAB] ++ u "b" ++ [NL]))).
Proof.
  split; (split; [|split; [|split; [|split]]]).
  - eexists _, _, (Sample.fixed 0 Sample.two_newlines []), _. vm_compute. auto.
  - exists (u "utf-8"). split; reflexivity.
  - reflexivity.
  - reflexivity.
  - vm_compute. discriminate.
  - eexists _, _, (Sample.fixed 0 Sample.leading_blank []), _. vm_compute. auto.
  - exists (u "utf-8"). split; reflexivity.
  - reflexivity.
  - reflexivity.
  - vm_compute. discriminate.
Qed.

Lemma Forall2_split_fields (lines : list str) :
  Forall2 (fun record line =>
             length record = tab_fields line /\ join [TAB] record = line)
          (map (split TAB) lines) lines.
Proof.
  induction lines as [|l lines IH]; simpl; constructor; [|exact IH].
  split; [apply split_length | apply join_split].
Qed.

(** C3, as the code has it. The records correspond one to one to the
    lines of the stripped output; each has as many fields as its line has
    tab-separated fields (one more than its tabs), and its fields joined by
    tabs are the line again, so none is dropped or merged. These lines are
    the raw lines of the output when, one trailing newline apart, it
    neither begins nor ends with whitespace. *)
Theorem C3_one_field_per_tab_separated_field
    (spawn : PopenCall -> Outcome Process) (o : Object)
    (sentences : Sentences) (done : Completed) (s : str) :
  child_finished spawn o sentences done ->
  returncode done = 0%Z ->
  decoded_output o done s ->
  exists records,
    result_of spawn o sentences = Return records
    /\ Forall2 (fun record line =>
                  length record = tab_fields line /\ join [TAB] record = line)
               records (split NL (strip s))
    /\ (begins_with_space (remove_one_trailing_newline s) = false ->
        ends_with_space (remove_one_trailing_newline s) = false ->
        Forall2 (fun record line =>
                   length record = tab_fields line /\ join [TAB] record = line)
                records (split NL (remove_one_trailing_newline s))).
Proof.
  intros Hc Hrc Hd.
  exists (map (split TAB) (split NL (strip s))).
  split; [exact (result_of_decoded Hc Hrc Hd)|].
  split; [apply Forall2_split_fields|].
  intros Hb He. rewrite (strip_remove_one_trailing_newline s Hb He).
  apply Forall2_split_fields.
Qed.

Lemma C3_witness :
  child_finished (Sample.always Sample.echo) Sample.english
    (OfList Sample.what_is_the_answer)
    (Sample.echo (b "What" ++ [x0a] ++ b "is" ++ [x0a] ++ b "the" ++ [x0a]
                  ++ b "answer"))
  /\ exists records,
       result_of (Sample.always Sample.echo) Sample.english
         (OfList Sample.what_is_the_answer) = Return records
       /\ Forall2 (fun record line =>
                     length record = tab_fields line
                     /\ join [TAB] record = line)
            records
            [ u "What" ++ [TAB] ++ u "XX" ++ [TAB] ++ u "What";
              u "is" ++ [TAB] ++ u "XX" ++ [TAB] ++ u "is";
              u "the" ++ [TAB] ++ u "XX" ++ [TAB] ++ u "the";
              u "answer" ++ [TAB] ++ u "XX" ++ [TAB] ++ u "answer" ].
Proof.
  assert (Hc : child_finished (Sample.always Sample.echo) Sample.english
                 (OfList Sample.what_is_the_answer)
                 (Sample.echo (b "What" ++ [x0a] ++ b "is" ++ [x0a] ++ b "the"
                               ++ [x0a] ++ b "answer"))).
  { eexists _, _, Sample.echo, _. vm_compute. auto. }
  split; [exact Hc|].
  assert (Hd : decoded_output Sample.english
                 (Sample.echo (b "What" ++ [x0a] ++ b "is" ++ [x0a] ++ b "the"
                               ++ [x0a] ++ b "answer"))
                 (unlines
                    [ u "What" ++ [TAB] ++ u "XX" ++ [TAB] ++ u "What";
                      u "is" ++ [TAB] ++ u "XX" ++ [TAB] ++ u "is";
                      u "the" ++ [TAB] ++ u "XX" ++ [TAB] ++ u "the";
                      u "answer" ++ [TAB] ++ u "XX" ++ [TAB] ++ u "answer" ])).
  { exists (u "utf-8"). split; reflexivity. }
  destruct (C3_one_field_per_tab_separated_field Hc eq_refl Hd)
    as (records & R & F & _).
  exists records. split; [exact R | exact F].
Defined.

(** C3, the claim as worded, fails on a last line that ends with a tab. A
    child prints [a\tb\t\n]: the raw line holds three tab-separated fields,
    the last of them empty, and the record returned holds two. *)
Lemma C3_counterexample :
  child_finished (Sample.always (Sample.fixed 0 Sample.trailing_tab []))
    Sample.english (OfList [u "a"])
    {| returncode := 0; stdout := Sample.trailing_tab; stderr := [] |}
  /\ decoded_output Sample.english
       {| returncode := 0; stdout := Sample.trailing_tab; stderr := [] |}
       (u "a" ++ [TAB] ++ u "b" ++ [TAB; NL])
  /\ spec_lines (u "a" ++ [TAB] ++ u "b" ++ [TAB; NL])
     = [u "a" ++ [TAB] ++ u "b" ++ [TAB]]
  /\ tab_fields (u "a" ++ [TAB] ++ u "b" ++ [TAB]) = 3
  /\ result_of (Sample.always (Sample.fixed 0 Sample.trailing_tab []))
       Sample.english (OfList [u "a"])
     = Return [[u "a"; u "b"]]
  /\ length [u "a"; u "b"] <> tab_fields (u "a" ++ [TAB] ++ u "b" ++ [TAB]).
Proof.
  split; [|split; [|split; [|split; [|split]]]].
  - eexists _, _, (Sample.fixed 0 Sample.trailing_tab []), _. vm_compute. auto.
  - exists (u "utf-8"). split; reflexivity.
  - reflexivity.
  - reflexivity.
  - reflexivity.
  - vm_compute. discriminate.
Qed.

(** C4, as the code has it. A child that exits with status zero and
    prints one newline-terminated line per token, the first and the last
    line each holding a character that is not whitespace (an echo of
    [<token>\tXX\t<token>] does), makes [tag] return as many records as
    there are tokens, in the order of the lines: each record is its line
    cut at tabs, the first line without its leading and the last without
    its trailing whitespace. *)
Theorem C4_one_record_per_output_line (spawn : PopenCall -> Outcome Process)
    (o : Object) (tokens : list str) (done : Completed) (lines : list str) :
  child_finished spawn o (OfList tokens) done ->
  returncode done = 0%Z ->
  decoded_output o done (unlines lines) ->
  length lines = length tokens ->
  Forall newline_free lines ->
  has_nonspace (hd [] lines) = true ->
  has_nonspace (last lines []) = true ->
  exists records,
    result_of spawn o (OfList tokens) = Return records
    /\ length records = length tokens
    /\ records = map (split TAB) (trim_ends lines).
Proof.
  intros Hc Hrc Hd Hlen Hnl Hh Hl.
  exists (map (split TAB) (trim_ends lines)).
  split; [|split; [|reflexivity]].
  - rewrite (result_of_decoded Hc Hrc Hd).
    rewrite split_strip_unlines by assumption. reflexivity.
  - rewrite length_map, trim_ends_length. exact Hlen.
Qed.

Lemma C4_witness :
  child_finished (Sample.always Sample.echo) Sample.english
    (OfList Sample.what_is_the_answer)
    (Sample.echo (b "What" ++ [x0a] ++ b "is" ++ [x0a] ++ b "the" ++ [x0a]
                  ++ b "answer"))
  /\ exists records,
       result_of (Sample.always Sample.echo) Sample.english
         (OfList Sample.what_is_the_answer) = Return records
       /\ length records = length Sample.what_is_the_answer
       /\ records
          = map (split TAB)
              (trim_ends
                 [ u "What" ++ [TAB] ++ u "XX" ++ [TAB] ++ u "What";
                   u "is" ++ [TAB] ++ u "XX" ++ [TAB] ++ u "is";
                   u "the" ++ [TAB] ++ u "XX" ++ [TAB] ++ u "the";
                   u "answer" ++ [TAB] ++ u "XX" ++ [TAB] ++ u "answer" ]).
Proof.
  assert (Hc : child_finished (Sample.always Sample.echo) Sample.english
                 (OfList Sample.what_is_the_answer)
                 (Sample.echo (b "What" ++ [x0a] ++ b "is" ++ [x0a] ++ b "the"
                               ++ [x0a] ++ b "answer"))).
  { eexists _, _, Sample.echo, _. vm_compute. auto. }
  split; [exact Hc|].
  assert (Hd : decoded_output Sample.english
                 (Sample.echo (b "What" ++ [x0a] ++ b "is" ++ [x0a] ++ b "the"
                               ++ [x0a] ++ b "answer"))
                 (unlines
                    [ u "What" ++ [TAB] ++ u "XX" ++ [TAB] ++ u "What";
                      u "is" ++ [TAB] ++ u "XX" ++ [TAB] ++ u "is";
                      u "the" ++ [TAB] ++ u "XX" ++ [TAB] ++ u "the";
                      u "answer" ++ [TAB] ++ u "XX" ++ [TAB] ++ u "answer" ])).
  { exists (u "utf-8"). split; reflexivity. }
  assert (Hnl : Forall newline_free
                  [ u "What" ++ [TAB] ++ u "XX" ++ [TAB] ++ u "What";
                    u "is" ++ [TAB] ++ u "XX" ++ [TAB] ++ u "is";
                    u "the" ++ [TAB] ++ u "XX" ++ [TAB] ++ u "the";
                    u "answer" ++ [TAB] ++ u "XX" ++ [TAB] ++ u "answer" ]).
  { repeat constructor; unfold newline_free; vm_compute;
      intros H; repeat (destruct H as [H|H]; [discriminate H|]); exact H. }
  exact (C4_one_record_per_output_line Hc eq_refl Hd eq_refl Hnl eq_refl
           eq_refl).
Defined.

(** C4, the claim as worded, fails. For an empty list of tokens the
    echoing child prints nothing, which is one line per token, and [tag]
    returns one record, not none. For two tokens a child that prints two empty
    lines has printed one line per token, and [tag] returns one record,
    not two. *)
Lemma C4_counterexample :
  (Forall newline_free ([] : list str)
   /\ child_finished (Sample.always Sample.echo) Sample.english (OfList [])
        {| returncode := 0; stdout := []; stderr := [] |}
   /\ decoded_output Sample.english
        {| returncode := 0; stdout := []; stderr := [] |} []
   /\ one_line_per_token [] []
   /\ result_of (Sample.always Sample.echo) Sample.english (OfList [])
      = Return [[[]]]
   /\ length [[([] : str)]] <> length ([] : list str))
  /\ (Forall newline_free [u "a"; u "b"]
      /\ child_finished
           (Sample.always (Sample.fixed 0 Sample.blank_lines []))
           Sample.english (OfList [u "a"; u "b"])
           {| returncode := 0; stdout := Sample.blank_lines; stderr := [] |}
      /\ decoded_output Sample.english
           {| returncode := 0; stdout := Sample.blank_lines; stderr := [] |}
           [NL; NL]
      /\ one_line_per_token [u "a"; u "b"] [NL; NL]
      /\ result_of (Sample.always (Sample.fixed 0 Sample.blank_lines []))
           Sample.english (OfList [u "a"; u "b"])
         = Return [[[]]]
      /\ length [[([] : str)]] <> length [u "a"; u "b"]).
Proof.
  split; (split; [|split; [|split; [|split; [|split]]]]).
  - constructor.
  - eexists _, _, Sample.echo, _. vm_compute. auto.
  - exists (u "utf-8"). split; reflexivity.
  - exists []. repeat split. constructor.
  - reflexivity.
  - discriminate.
  - repeat constructor; unfold newline_free; vm_compute;
      intros H; repeat (destruct H as [H|H]; [discriminate H|]); exact H.
  - eexists _, _, (Sample.fixed 0 Sample.blank_lines []), _. vm_compute. auto.
  - exists (u "utf-8"). split; reflexivity.
  - exists [[]; []]. repeat split.
    repeat constructor; unfold newline_free; intros [].
  - reflexivity.
  - discriminate.
Qed.

(* ================================================================== *)
(** ** Further properties of the module *)
(* ================================================================== *)

(** X1. For a (language, encoding) pair of the language table the
    constructor succeeds whenever the search finds the binary: the object
    holds the abbreviation list and the encoding it was given and the path
    that was found, and the search ran exactly once. *)
Theorem X1_known_pair_constructs
    (find_binary : FindBinaryCall -> Outcome str) (expanduser : str -> str)
    (path_to_home : option str) (language encoding : str) (verbose : bool)
    (abbreviation_list : option str) (log : list Event) (bin : str) :
  in_language_table language encoding ->
  find_binary (find_binary_call expanduser path_to_home language verbose)
  = Return bin ->
  TreeTagger find_binary expanduser path_to_home language encoding verbose
    abbreviation_list log
  = (Return {| _abbr_list := Some abbreviation_list;
               _encoding := Some encoding;
               _treetagger_bin := Some bin |},
     log ++ [EvFindBinary
               (find_binary_call expanduser path_to_home language verbose)]).
Proof.
  intros K F. apply known_pair_table in K.
  rewrite TreeTagger_eq, K. cbn zeta. rewrite F. reflexivity.
Qed.

Lemma X1_witness :
  in_language_table (u "latin") (u "latin-1")
  /\ TreeTagger Sample.found Sample.home None (u "latin") (u "latin-1") false
       None []
     = (Return Sample.latin,
        [EvFindBinary (find_binary_call Sample.home None (u "latin") false)]).
Proof.
  assert (K : in_language_table (u "latin") (u "latin-1")).
  { apply known_pair_table. reflexivity. }
  split; [exact K|].
  exact (X1_known_pair_constructs Sample.found Sample.home None false None []
           K eq_refl).
Defined.

(** X2. When the search for the binary fails, the constructor fails with
    the error of the search, after that one search and before any child
    process: no object is handed to the caller. *)
Theorem X2_binary_not_found_fails_construction
    (find_binary : FindBinaryCall -> Outcome str) (expanduser : str -> str)
    (path_to_home : option str) (language encoding : str) (verbose : bool)
    (abbreviation_list : option str) (log : list Event) (e : Exn) :
  in_language_table language encoding ->
  find_binary (find_binary_call expanduser path_to_home language verbose)
  = Raise e ->
  TreeTagger find_binary expanduser path_to_home language encoding verbose
    abbreviation_list log
  = (Raise e,
     log ++ [EvFindBinary
               (find_binary_call expanduser path_to_home language verbose)]).
Proof.
  intros K F. apply known_pair_table in K.
  rewrite TreeTagger_eq, K. cbn zeta. rewrite F. reflexivity.
Qed.

Lemma X2_witness :
  in_language_table (u "english") (u "utf-8")
  /\ TreeTagger Sample.not_found Sample.home None (u "english") (u "utf-8")
       false None []
     = (Raise (mkExn LookupError [VStr _treetagger_url]),
        [EvFindBinary (find_binary_call Sample.home None (u "english") false)]).
Proof.
  assert (K : in_language_table (u "english") (u "utf-8")).
  { apply known_pair_table. reflexivity. }
  split; [exact K|].
  exact (X2_binary_not_found_fails_construction Sample.not_found Sample.home
           None false None [] K eq_refl).
Defined.

(** X3. One [tag] call starts at most one child process, whatever the
    state of the object and the world. *)
Theorem X3_at_most_one_child (spawn : PopenCall -> Outcome Process)
    (o : Object) (sentences : Sentences) :
  length (filter is_popen (events_of spawn o sentences)) <= 1.
Proof.
  destruct o as [[abbr|] [enc|] [bin|]].
  - pose proof (events_of_cases spawn
                  {| _abbr_list := Some abbr; _encoding := Some enc;
                     _treetagger_bin := Some bin |}
                  sentences eq_refl eq_refl eq_refl) as Hev.
    destruct (prepare_input enc sentences) as [input|e].
    + destruct (spawn (popen_call bin abbr)) as [p|e].
      * destruct Hev as (rest & -> & [-> | [err ->]]); simpl; lia.
      * rewrite Hev. simpl. lia.
    + rewrite Hev. simpl. lia.
  - unfold events_of, run_tag. run_monad.
    destruct (prepare_input enc sentences); [destruct abbr|]; simpl; lia.
  - unfold events_of, run_tag. run_monad. lia.
  - unfold events_of, run_tag. run_monad. lia.
  - unfold events_of, run_tag. run_monad.
    destruct (prepare_input enc sentences); simpl; lia.
  - unfold events_of, run_tag. run_monad.
    destruct (prepare_input enc sentences); simpl; lia.
  - unfold events_of, run_tag. run_monad. lia.
  - unfold events_of, run_tag. run_monad. lia.
Qed.

(* ================================================================== *)
(** ** The codecs undo each other *)
(* ================================================================== *)

Section CodecFacts.

Local Open Scope N_scope.

Ltac div_lia := zify; Z.to_euclidean_division_equations; lia.

Lemma to_N_byte_of_N (n : N) : n < 256 -> Byte.to_N (byte_of_N n) = n.
Proof.
  intros H. unfold byte_of_N. change 0xFF with (N.ones 8).
  rewrite N.land_ones, N.mod_small by exact H.
  destruct (Byte.of_N n) as [x|] eqn:E.
  - apply Byte.to_of_N. exact E.
  - apply Byte.of_N_None_iff in E. lia.
Qed.

(** Bits set below a shifted value add up with it. *)
Lemma lor_shiftl_low (h k x : N) :
  x < 2 ^ k -> N.lor (N.shiftl h k) x = h * 2 ^ k + x.
Proof.
  intros H. rewrite N.shiftl_mul_pow2.
  assert (L : N.land (h * 2 ^ k) x = 0).
  { apply N.bits_inj_0. intros n. rewrite N.land_spec.
    destruct (N.lt_ge_cases n k) as [Hn|Hn].
    - rewrite N.mul_pow2_bits_low by exact Hn. reflexivity.
    - assert (T : N.testbit x n = false).
      { destruct (N.eq_dec x 0) as [->|Hx]; [apply N.bits_0|].
        apply N.bits_above_log2.
        assert (N.log2 x < k) by (apply N.log2_lt_pow2; [lia | exact H]).
        lia. }
      rewrite T. apply andb_false_r. }
  rewrite <- N.lxor_lor, <- N.add_nocarry_lxor by exact L. reflexivity.
Qed.

Lemma cont_byte (x : N) :
  x < 64 ->
  Byte.to_N (byte_of_N (N.lor 0x80 x)) = 128 + x
  /\ is_cont (byte_of_N (N.lor 0x80 x)) = true
  /\ cont_bits (byte_of_N (N.lor 0x80 x)) = x.
Proof.
  intros H.
  assert (E : N.lor 0x80 x = 128 + x).
  { change 0x80 with (N.shiftl 2 6). rewrite lor_shiftl_low by exact H.
    reflexivity. }
  assert (T : Byte.to_N (byte_of_N (N.lor 0x80 x)) = 128 + x).
  { rewrite E. apply to_N_byte_of_N. lia. }
  split; [exact T|]. unfold is_cont, cont_bits. rewrite T. split.
  - apply andb_true_intro. split; apply N.leb_le; lia.
  - change 0x3F with (N.ones 6). rewrite N.land_ones. change (2 ^ 6) with 64.
    div_lia.
Qed.

Lemma lead_byte (k tag h : N) :
  h < 2 ^ k -> tag < 2 ^ (8 - k) -> k <= 8 ->
  Byte.to_N (byte_of_N (N.lor (N.shiftl tag k) h)) = tag * 2 ^ k + h
  /\ N.land (tag * 2 ^ k + h) (N.ones k) = h.
Proof.
  intros H T K. rewrite lor_shiftl_low by exact H. split.
  - apply to_N_byte_of_N.
    assert (P : 2 ^ (8 - k) * 2 ^ k = 256).
    { rewrite <- N.pow_add_r. replace (8 - k + k) with 8 by lia. reflexivity. }
    nia.
  - rewrite N.land_ones. rewrite N.add_comm, N.Div0.mod_add.
    apply N.mod_small. exact H.
Qed.

Ltac decide_tests :=
  repeat match goal with
         | |- context [?a <? ?b] =>
             first [ rewrite (proj2 (N.ltb_lt a b)) by lia
                   | rewrite (proj2 (N.ltb_ge a b)) by lia ]
         | |- context [?a <=? ?b] =>
             first [ rewrite (proj2 (N.leb_le a b)) by lia
                   | rewrite (proj2 (N.leb_gt a b)) by lia ]
         | |- context [?a =? ?b] =>
             first [ rewrite (proj2 (N.eqb_eq a b)) by lia
                   | rewrite (proj2 (N.eqb_neq a b)) by lia ]
         end.

Lemma is_cont_range (x : byte) :
  is_cont x = true -> 0x80 <= Byte.to_N x <= 0xBF.
Proof.
  unfold is_cont. intros H. apply andb_prop in H. destruct H as [A B].
  apply N.leb_le in A. apply N.leb_le in B. lia.
Qed.

Lemma utf8_decode_1 (b0 : byte) (r : bytes) :
  Byte.to_N b0 < 0x80 ->
  utf8_decode (b0 :: r) = option_map (cons (Byte.to_N b0)) (utf8_decode r).
Proof.
  intros H. cbn [utf8_decode]. cbv zeta. decide_tests. reflexivity.
Qed.

Lemma utf8_decode_2 (b0 b1 : byte) (r : bytes) :
  0xC2 <= Byte.to_N b0 < 0xE0 -> is_cont b1 = true ->
  utf8_decode (b0 :: b1 :: r)
  = option_map
      (cons (N.lor (N.shiftl (N.land (Byte.to_N b0) 0x1F) 6) (cont_bits b1)))
      (utf8_decode r).
Proof.
  intros H C. cbn [utf8_decode]. cbv zeta. decide_tests. rewrite C.
  reflexivity.
Qed.

Lemma utf8_decode_3 (b0 b1 b2 : byte) (r : bytes) :
  0xE0 <= Byte.to_N b0 < 0xF0 ->
  is_cont b1 = true -> is_cont b2 = true ->
  (Byte.to_N b0 = 0xE0 -> 0xA0 <= Byte.to_N b1) ->
  (Byte.to_N b0 = 0xED -> Byte.to_N b1 <= 0x9F) ->
  utf8_decode (b0 :: b1 :: b2 :: r)
  = option_map
      (cons (N.lor (N.shiftl (N.land (Byte.to_N b0) 0x0F) 12)
               (N.lor (N.shiftl (cont_bits b1) 6) (cont_bits b2))))
      (utf8_decode r).
Proof.
  intros H C1 C2 Lo Hi. pose proof (@is_cont_range b1 C1) as R1.
  cbn [utf8_decode]. cbv zeta. decide_tests. rewrite C2.
  destruct (N.eq_dec (Byte.to_N b0) 0xE0) as [E|E];
    destruct (N.eq_dec (Byte.to_N b0) 0xED) as [D|D];
    try (specialize (Lo E)); try (specialize (Hi D));
    decide_tests; reflexivity.
Qed.

Lemma utf8_decode_4 (b0 b1 b2 b3 : byte) (r : bytes) :
  0xF0 <= Byte.to_N b0 < 0xF5 ->
  is_cont b1 = true -> is_cont b2 = true -> is_cont b3 = true ->
  (Byte.to_N b0 = 0xF0 -> 0x90 <= Byte.to_N b1) ->
  (Byte.to_N b0 = 0xF4 -> Byte.to_N b1 <= 0x8F) ->
  utf8_decode (b0 :: b1 :: b2 :: b3 :: r)
  = option_map
      (cons (N.lor (N.shiftl (N.land (Byte.to_N b0) 0x07) 18)
               (N.lor (N.shiftl (cont_bits b1) 12)
                  (N.lor (N.shiftl (cont_bits b2) 6) (cont_bits b3)))))
      (utf8_decode r).
Proof.
  intros H C1 C2 C3 Lo Hi. pose proof (@is_cont_range b1 C1) as R1.
  cbn [utf8_decode]. cbv zeta. decide_tests. rewrite C2, C3.
  destruct (N.eq_dec (Byte.to_N b0) 0xF0) as [E|E];
    destruct (N.eq_dec (Byte.to_N b0) 0xF4) as [D|D];
    try (specialize (Lo E)); try (specialize (Hi D));
    decide_tests; reflexivity.
Qed.

(** Decoding undoes the encoding of one character. *)
Lemma utf8_decode_encode_char_cases (c : N) (r : bytes) :
  match utf8_encode_char c with
  | Some bs => utf8_decode (bs ++ r) = option_map (cons c) (utf8_decode r)
  | None => True
  end.
Proof.
  unfold utf8_encode_char, max_code_point.
  destruct (N.ltb_spec c 0x80) as [H1|H1].
  { cbn [app].
    rewrite utf8_decode_1; rewrite to_N_byte_of_N by lia; [reflexivity|lia]. }
  rewrite !N.shiftr_div_pow2.
  change 0x3F with (N.ones 6). rewrite !N.land_ones.
  change (2 ^ 6) with 64. change (2 ^ 12) with 4096. change (2 ^ 18) with 262144.
  destruct (@cont_byte (c mod 64)) as (_ & K0 & V0); [div_lia|].
  destruct (N.ltb_spec c 0x800) as [H2|H2].
  { cbn [app].
    change 0xC0 with (N.shiftl 6 5).
    destruct (@lead_byte 5 6 (c / 64)) as (L & M); [div_lia | reflexivity | lia |].
    change (2 ^ 5) with 32 in L, M.
    rewrite utf8_decode_2; [|rewrite L; div_lia | exact K0].
    rewrite L. change 0x1F with (N.ones 5). rewrite M, V0.
    rewrite lor_shiftl_low by (change (2 ^ 6) with 64; div_lia).
    change (2 ^ 6) with 64.
    replace (c / 64 * 64 + c mod 64) with c by div_lia. reflexivity. }
  destruct (@cont_byte ((c / 64) mod 64)) as (T1 & K1 & V1); [div_lia|].
  destruct (N.ltb_spec c 0x10000) as [H3|H3].
  { destruct ((0xD800 <=? c) && (c <=? 0xDFFF)) eqn:S; [exact I|].
    assert (NS : c < 0xD800 \/ 0xDFFF < c).
    { apply andb_false_iff in S. destruct S as [S|S];
        [apply N.leb_gt in S | apply N.leb_gt in S]; lia. }
    cbn [app].
    change 0xE0 with (N.shiftl 14 4).
    destruct (@lead_byte 4 14 (c / 4096)) as (L & M);
      [div_lia | reflexivity | lia |].
    change (2 ^ 4) with 16 in L, M.
    rewrite utf8_decode_3;
      [ | rewrite L; div_lia | exact K1 | exact K0
        | rewrite L, T1; div_lia | rewrite L, T1; div_lia ].
    rewrite L. change 0x0F with (N.ones 4). rewrite M, V1, V0.
    rewrite (@lor_shiftl_low _ 6 _) by (change (2 ^ 6) with 64; div_lia).
    rewrite lor_shiftl_low by (change (2 ^ 6) with 64; change (2 ^ 12) with 4096; div_lia).
    change (2 ^ 6) with 64. change (2 ^ 12) with 4096.
    replace (c / 4096 * 4096 + (c / 64 mod 64 * 64 + c mod 64)) with c
      by div_lia.
    reflexivity. }
  destruct (@cont_byte ((c / 4096) mod 64)) as (T2 & K2 & V2); [div_lia|].
  destruct (N.leb_spec c 0x10FFFF) as [H4|H4]; [|exact I].
  cbn [app].
  change 0xF0 with (N.shiftl 30 3).
  destruct (@lead_byte 3 30 (c / 262144)) as (L & M);
    [div_lia | reflexivity | lia |].
  change (2 ^ 3) with 8 in L, M.
  rewrite utf8_decode_4;
    [ | rewrite L; div_lia | exact K2 | exact K1 | exact K0
      | rewrite L, T2; div_lia | rewrite L, T2; div_lia ].
  rewrite L. change 0x07 with (N.ones 3). rewrite M, V2, V1, V0.
  rewrite (@lor_shiftl_low _ 6 _) by (change (2 ^ 6) with 64; div_lia).
  rewrite (@lor_shiftl_low _ 12 _)
    by (change (2 ^ 6) with 64; change (2 ^ 12) with 4096; div_lia).
  rewrite lor_shiftl_low
    by (change (2 ^ 6) with 64; change (2 ^ 12) with 4096;
        change (2 ^ 18) with 262144; div_lia).
  change (2 ^ 6) with 64. change (2 ^ 12) with 4096.
  change (2 ^ 18) with 262144.
  replace (c / 262144 * 262144
           + (c / 4096 mod 64 * 4096 + (c / 64 mod 64 * 64 + c mod 64)))
    with c by div_lia.
  reflexivity.
Qed.

Lemma utf8_decode_encode_char (c : N) (bs r : bytes) :
  utf8_encode_char c = Some bs ->
  utf8_decode (bs ++ r) = option_map (cons c) (utf8_decode r).
Proof.
  intros E. pose proof (utf8_decode_encode_char_cases c r) as H.
  rewrite E in H. exact H.
Qed.

(** Strict UTF-8 decoding undoes UTF-8 encoding. *)
Lemma utf8_decode_encode (s : str) (x : bytes) :
  utf8_encode s = Some x -> utf8_decode x = Some s.
Proof.
  revert x. induction s as [|c s IH]; intros x; cbn [utf8_encode].
  - intros E. injection E as <-. reflexivity.
  - destruct (utf8_encode_char c) as [bs|] eqn:C; [|discriminate].
    destruct (utf8_encode s) as [y|]; [|discriminate].
    intros E. injection E as <-.
    rewrite (@utf8_decode_encode_char c bs y C), (IH y eq_refl). reflexivity.
Qed.

Lemma latin1_decode_encode (s : str) (x : bytes) :
  latin1_encode s = Some x -> latin1_decode x = s.
Proof.
  revert x. induction s as [|c s IH]; intros x; cbn [latin1_encode].
  - intros E. injection E as <-. reflexivity.
  - destruct (N.ltb_spec c 256) as [H|H]; [|discriminate].
    destruct (latin1_encode s) as [y|]; [|discriminate].
    cbn [option_map]. intros E. injection E as <-.
    cbn [latin1_decode map]. rewrite to_N_byte_of_N by exact H.
    f_equal. apply IH. reflexivity.
Qed.

Lemma latin1_encode_spec (s : str) (x : bytes) :
  latin1_encode s = Some x ->
  x = map byte_of_N s /\ Forall (fun c => c < 256) s.
Proof.
  revert x. induction s as [|c s IH]; intros x; cbn [latin1_encode].
  - intros E. injection E as <-. split; [reflexivity | constructor].
  - destruct (N.ltb_spec c 256) as [H|H]; [|discriminate].
    destruct (latin1_encode s) as [y|]; [|discriminate].
    cbn [option_map]. intros E. injection E as <-.
    destruct (IH y eq_refl) as [-> F]. split; [reflexivity|].
    constructor; assumption.
Qed.

Lemma latin1_encode_refuses (s : str) :
  Exists (fun c => 256 <= c) s -> latin1_encode s = None.
Proof.
  induction 1 as [c s H | c s H IH]; cbn [latin1_encode].
  - destruct (N.ltb_spec c 256); [lia | reflexivity].
  - destruct (c <? 256); [|reflexivity]. rewrite IH. reflexivity.
Qed.

Lemma utf8_encode_refuses (s : str) :
  Exists utf8_refuses s -> utf8_encode s = None.
Proof.
  induction 1 as [c s H | c s H IH]; cbn [utf8_encode].
  - assert (E : utf8_encode_char c = None).
    { unfold utf8_encode_char. unfold utf8_refuses, max_code_point in *.
      destruct (N.ltb_spec c 0x80); [lia|].
      destruct (N.ltb_spec c 0x800); [lia|].
      destruct (N.ltb_spec c 0x10000).
      - assert (S : (0xD800 <=? c) && (c <=? 0xDFFF) = true).
        { apply andb_true_intro. split; apply N.leb_le; lia. }
        rewrite S. reflexivity.
      - destruct (N.leb_spec c 0x10FFFF); [lia | reflexivity]. }
    rewrite E. reflexivity.
  - rewrite IH. destruct (utf8_encode_char c); reflexivity.
Qed.

Lemma is_ascii_Forall (s : str) :
  is_ascii s = true <-> Forall (fun c => c < 128) s.
Proof.
  unfold is_ascii. rewrite forallb_forall, Forall_forall.
  split; intros H c Hc; [apply N.ltb_lt | apply N.ltb_lt]; auto.
Qed.

Lemma utf8_encode_ascii (s : str) :
  is_ascii s = true -> utf8_encode s = Some (map byte_of_N s).
Proof.
  induction s as [|c s IH]; cbn [is_ascii forallb utf8_encode map];
    [reflexivity|].
  intros H. apply andb_prop in H. destruct H as [Hc Hs].
  unfold utf8_encode_char. rewrite Hc. rewrite (IH Hs). reflexivity.
Qed.

Lemma latin1_encode_ascii (s : str) :
  is_ascii s = true -> latin1_encode s = Some (map byte_of_N s).
Proof.
  induction s as [|c s IH]; cbn [is_ascii forallb latin1_encode map];
    [reflexivity|].
  intros H. apply andb_prop in H. destruct H as [Hc Hs].
  apply N.ltb_lt in Hc.
  destruct (N.ltb_spec c 256); [|lia]. rewrite (IH Hs). reflexivity.
Qed.

(** A decoded string is no longer than its bytes, and as long only when
    every byte is below 128. *)
Lemma utf8_decode_length (n : nat) :
  forall (x : bytes) (s : str),
    (length x <= n)%nat -> utf8_decode x = Some s ->
    (length s <= length x)%nat
    /\ (length s = length x -> Forall (fun c => Byte.to_N c < 0x80) x).
Proof.
  induction n as [|n IH]; intros x s Hlen.
  - destruct x; [|simpl in Hlen; lia].
    intros E. injection E as <-. split; [reflexivity | constructor].
  - destruct x as [|b0 r0].
    { intros E. injection E as <-. split; [reflexivity | constructor]. }
    cbn [utf8_decode]. cbv zeta.
    destruct (N.ltb_spec (Byte.to_N b0) 0x80) as [H0|H0].
    { destruct (utf8_decode r0) as [s0|] eqn:D; [|discriminate].
      cbn [option_map]. intros E. injection E as <-.
      destruct (IH r0 s0) as [L A]; [simpl in Hlen; lia | exact D |].
      simpl. split; [lia|]. intros Q. constructor; [exact H0|].
      apply A. lia. }
    destruct (Byte.to_N b0 <? 0xC2); [discriminate|].
    destruct (Byte.to_N b0 <? 0xE0).
    { destruct r0 as [|b1 r1]; [discriminate|].
      destruct (is_cont b1); [|discriminate].
      destruct (utf8_decode r1) as [s1|] eqn:D; [|discriminate].
      cbn [option_map]. intros E. injection E as <-.
      destruct (IH r1 s1) as [L _]; [simpl in Hlen; lia | exact D |].
      simpl. split; [lia | intros Q; lia]. }
    destruct (Byte.to_N b0 <? 0xF0).
    { destruct r0 as [|b1 [|b2 r2]]; try discriminate.
      destruct (_ && is_cont b2); [|discriminate].
      destruct (utf8_decode r2) as [s2|] eqn:D; [|discriminate].
      cbn [option_map]. intros E. injection E as <-.
      destruct (IH r2 s2) as [L _]; [simpl in Hlen; lia | exact D |].
      simpl. split; [lia | intros Q; lia]. }
    destruct (Byte.to_N b0 <? 0xF5); [|discriminate].
    destruct r0 as [|b1 [|b2 [|b3 r3]]]; try discriminate.
    destruct (_ && is_cont b3); [|discriminate].
    destruct (utf8_decode r3) as [s3|] eqn:D; [|discriminate].
    cbn [option_map]. intros E. injection E as <-.
    destruct (IH r3 s3) as [L _]; [simpl in Hlen; lia | exact D |].
    simpl. split; [lia | intros Q; lia].
Qed.

(** Latin-1 bytes decode as UTF-8 to the text they encode exactly when the
    text is plain ASCII. *)
Lemma utf8_decode_latin1_iff_ascii (s : str) (x : bytes) :
  latin1_encode s = Some x ->
  (utf8_decode x = Some s <-> is_ascii s = true).
Proof.
  intros E. split.
  - intros D. destruct (@latin1_encode_spec s x E) as [-> F].
    destruct (@utf8_decode_length (length (map byte_of_N s)) _ _ (le_n _) D)
      as [_ A].
    specialize (A (eq_sym (length_map _ _))).
    apply is_ascii_Forall. rewrite Forall_forall in *.
    intros c Hc. specialize (A (byte_of_N c) (in_map _ _ _ Hc)).
    rewrite to_N_byte_of_N in A by (apply F; exact Hc). exact A.
  - intros A. rewrite (latin1_encode_ascii s A) in E. injection E as <-.
    apply utf8_decode_encode. apply utf8_encode_ascii. exact A.
Qed.

End CodecFacts.

(* ================================================================== *)
(** ** What is written and what is read back *)
(* ================================================================== *)

Lemma str_encode_inv (s encoding : str) (x : bytes) :
  str_encode s encoding = Return x ->
  (encoding = u "utf-8" /\ utf8_encode s = Some x)
  \/ (encoding = u "latin-1" /\ latin1_encode s = Some x).
Proof.
  unfold str_encode.
  destruct (str_eqb encoding (u "utf-8")) eqn:U.
  - apply str_eqb_eq in U. destruct (utf8_encode s); [|discriminate].
    intros E. injection E as <-. auto.
  - destruct (str_eqb encoding (u "latin-1")) eqn:L; [|discriminate].
    apply str_eqb_eq in L. destruct (latin1_encode s); [|discriminate].
    intros E. injection E as <-. auto.
Qed.

Lemma str_encode_utf8 (s : str) :
  str_encode s (u "utf-8") =
  match utf8_encode s with
  | Some x => Return x
  | None => Raise (mkExn UnicodeEncodeError [VStr (u "utf-8"); VStr s])
  end.
Proof. reflexivity. Qed.

Lemma str_encode_latin1 (s : str) :
  str_encode s (u "latin-1") =
  match latin1_encode s with
  | Some x => Return x
  | None => Raise (mkExn UnicodeEncodeError [VStr (u "latin-1"); VStr s])
  end.
Proof. reflexivity. Qed.

Lemma prepare_input_text (encoding : str) (sentences : Sentences)
    (text : str) :
  truthy encoding = true -> text_of sentences = Some text ->
  prepare_input encoding sentences =
  match str_encode text encoding with
  | Return x => Return (VBytes x)
  | Raise e => Raise e
  end.
Proof.
  intros T E. rewrite (prepare_input_truthy encoding sentences T).
  destruct sentences; simpl in E; try discriminate;
    injection E as <-; reflexivity.
Qed.

(** X4. [tUoB3] undoes [str.encode]: bytes obtained by encoding a string
    with one of the two encodings of the table are turned back into that
    string by [tUoB3] called with the same encoding. *)
Theorem X4_tUoB3_undoes_encode (s encoding : str) (x : bytes) :
  str_encode s encoding = Return x ->
  tUoB3 (VBytes x) encoding = Return (VStr s).
Proof.
  intros E. unfold tUoB3.
  destruct (str_encode_inv s encoding E) as [[-> U] | [-> L]].
  - unfold bytes_decode. change (str_eqb (u "utf-8") (u "utf-8")) with true.
    cbv iota. rewrite (utf8_decode_encode s U). reflexivity.
  - unfold bytes_decode.
    change (str_eqb (u "latin-1") (u "utf-8")) with false.
    change (str_eqb (u "latin-1") (u "latin-1")) with true. cbv iota.
    rewrite (latin1_decode_encode s L). reflexivity.
Qed.

Lemma X4_witness :
  str_encode [99; 97; 102; 233]%N (u "latin-1") = Return [x63; x61; x66; xe9]
  /\ tUoB3 (VBytes [x63; x61; x66; xe9]) (u "latin-1")
     = Return (VStr [99; 97; 102; 233]%N).
Proof.
  assert (E : str_encode [99; 97; 102; 233]%N (u "latin-1")
              = Return [x63; x61; x66; xe9]) by reflexivity.
  split; [exact E|]. exact (X4_tUoB3_undoes_encode _ _ E).
Defined.

(** What a UTF-8 object prepares from text decodes to that text. *)
Lemma decode_prepared_utf8 (sentences : Sentences) (text : str) (x : bytes) :
  text_of sentences = Some text ->
  prepare_input (u "utf-8") sentences = Return (VBytes x) ->
  decode_output (u "utf-8") (VBytes x) = Return (VStr text).
Proof.
  intros T. rewrite (prepare_input_text (u "utf-8") sentences eq_refl T).
  rewrite str_encode_utf8.
  destruct (utf8_encode text) as [y|] eqn:E; [|discriminate].
  intros H. injection H as <-.
  rewrite decode_output_bytes, (utf8_decode_encode text E). reflexivity.
Qed.

(** X5. An object configured for UTF-8 reads back what it writes: the
    bytes [tag] prepares from a list of words or from a string decode, in
    the step that reads the child's output, to the text they were made
    from. *)
Theorem X5_utf8_output_decodes_to_input (sentences : Sentences) (text : str)
    (x : bytes) :
  text_of sentences = Some text ->
  prepare_input (u "utf-8") sentences = Return (VBytes x) ->
  decode_output (u "utf-8") (VBytes x) = Return (VStr text).
Proof. exact (@decode_prepared_utf8 sentences text x). Qed.

Lemma X5_witness :
  text_of (OfList [[233]%N; [8364]%N]) = Some [233; 10; 8364]%N
  /\ prepare_input (u "utf-8") (OfList [[233]%N; [8364]%N])
     = Return (VBytes [xc3; xa9; x0a; xe2; x82; xac])
  /\ decode_output (u "utf-8") (VBytes [xc3; xa9; x0a; xe2; x82; xac])
     = Return (VStr [233; 10; 8364]%N).
Proof.
  assert (T : text_of (OfList [[233]%N; [8364]%N]) = Some [233; 10; 8364]%N)
    by reflexivity.
  assert (P : prepare_input (u "utf-8") (OfList [[233]%N; [8364]%N])
              = Return (VBytes [xc3; xa9; x0a; xe2; x82; xac]))
    by reflexivity.
  split; [exact T|]. split; [exact P|].
  exact (X5_utf8_output_decodes_to_input _ T P).
Defined.

(** X6. An object configured for Latin-1 reads back what it writes exactly
    when the text is plain ASCII: the bytes are written in Latin-1 and read
    as UTF-8, and the two agree on no other text. *)
Theorem X6_latin1_output_decodes_to_input_iff_ascii (sentences : Sentences)
    (text : str) (x : bytes) :
  text_of sentences = Some text ->
  prepare_input (u "latin-1") sentences = Return (VBytes x) ->
  (decode_output (u "latin-1") (VBytes x) = Return (VStr text)
   <-> is_ascii text = true).
Proof.
  intros T. rewrite (prepare_input_text (u "latin-1") sentences eq_refl T).
  rewrite str_encode_latin1.
  destruct (latin1_encode text) as [y|] eqn:E; [|discriminate].
  intros H. injection H as <-.
  rewrite decode_output_bytes.
  rewrite <- (utf8_decode_latin1_iff_ascii text E).
  destruct (utf8_decode y) as [s|]; split; intros H; try discriminate.
  - injection H as ->. reflexivity.
  - injection H as ->. reflexivity.
Qed.

Lemma X6_witness :
  text_of (OfStr [99; 97; 102; 233]%N) = Some [99; 97; 102; 233]%N
  /\ prepare_input (u "latin-1") (OfStr [99; 97; 102; 233]%N)
     = Return (VBytes [x63; x61; x66; xe9])
  /\ (decode_output (u "latin-1") (VBytes [x63; x61; x66; xe9])
      = Return (VStr [99; 97; 102; 233]%N)
      <-> is_ascii [99; 97; 102; 233]%N = true)
  /\ is_ascii [99; 97; 102; 233]%N = false.
Proof.
  assert (T : text_of (OfStr [99; 97; 102; 233]%N)
              = Some [99; 97; 102; 233]%N) by reflexivity.
  assert (P : prepare_input (u "latin-1") (OfStr [99; 97; 102; 233]%N)
              = Return (VBytes [x63; x61; x66; xe9])) by reflexivity.
  split; [exact T|]. split; [exact P|].
  split; [exact (X6_latin1_output_decodes_to_input_iff_ascii _ T P)
         | reflexivity].
Defined.

(* ================================================================== *)
(** ** Calls and the log *)
(* ================================================================== *)

Lemma after_communicate_frame (enc : str) (done : Completed) (o : Object)
    (log events : list Event) :
  after_communicate enc done o (log ++ events)
  = (fst (after_communicate enc done o events),
     {| self := o;
        trace := log ++ trace (snd (after_communicate enc done o events)) |}).
Proof.
  unfold after_communicate. destruct (negb (returncode done =? 0)%Z); simpl.
  - now rewrite app_assoc.
  - reflexivity.
Qed.

(** A call appends its events to the log and looks at nothing else of
    it. *)
Lemma tag_frame (spawn : PopenCall -> Outcome Process) (sentences : Sentences)
    (o : Object) (log : list Event) :
  tag spawn sentences {| self := o; trace := log |}
  = (result_of spawn o sentences,
     {| self := o; trace := log ++ events_of spawn o sentences |}).
Proof.
  unfold result_of, events_of, run_tag.
  destruct o as [[abbr|] [enc|] [bin|]].
  - rewrite (tag_eq spawn sentences _ log (enc:=enc) (abbr:=abbr) (bin:=bin))
      by reflexivity.
    rewrite (tag_eq spawn sentences _ [] (enc:=enc) (abbr:=abbr) (bin:=bin))
      by reflexivity.
    destruct (prepare_input enc sentences) as [input|e];
      [|simpl; now rewrite app_nil_r].
    cbn zeta. destruct (spawn (popen_call bin abbr)) as [p|e];
      [|reflexivity].
    rewrite <- !app_assoc.
    destruct input as [|s|x]; try apply after_communicate_frame.
    reflexivity.
  - run_monad. destruct (prepare_input enc sentences); [destruct abbr|];
      simpl; now rewrite app_nil_r.
  - run_monad. now rewrite app_nil_r.
  - run_monad. now rewrite app_nil_r.
  - run_monad. destruct (prepare_input enc sentences); simpl;
      now rewrite app_nil_r.
  - run_monad. destruct (prepare_input enc sentences); simpl;
      now rewrite app_nil_r.
  - run_monad. now rewrite app_nil_r.
  - run_monad. now rewrite app_nil_r.
Qed.

(** X12. A [tag] call only appends to the log of effects: what was logged
    before stays, in order, and neither the result nor the events of the
    call depend on it. *)
Theorem X12_tag_appends_to_the_log (spawn : PopenCall -> Outcome Process)
    (sentences : Sentences) (st : State) :
  tag spawn sentences st
  = (result_of spawn (self st) sentences,
     {| self := self st;
        trace := trace st ++ events_of spawn (self st) sentences |}).
Proof. destruct st as [o log]. apply tag_frame. Qed.

(** X13. Calls are independent: the result of a [tag] call is the same
    after any earlier call, in whatever world the earlier call ran, as
    without it. *)
Theorem X13_calls_are_independent
    (earlier spawn : PopenCall -> Outcome Process)
    (before sentences : Sentences) (st : State) :
  fst (tag spawn sentences (snd (tag earlier before st)))
  = fst (tag spawn sentences st).
Proof.
  destruct st as [o log].
  rewrite (tag_frame earlier before o log). cbn [snd].
  rewrite !tag_frame. reflexivity.
Qed.

(* ================================================================== *)
(** ** Errors of a call *)
(* ================================================================== *)

Lemma str_encode_unencodable (encoding text : str) :
  unencodable encoding text ->
  str_encode text encoding
  = Raise (mkExn UnicodeEncodeError [VStr encoding; VStr text]).
Proof.
  intros [[-> H] | [-> H]].
  - rewrite str_encode_latin1, (latin1_encode_refuses H). reflexivity.
  - rewrite str_encode_utf8, (utf8_encode_refuses H). reflexivity.
Qed.

Lemma unencodable_truthy (encoding text : str) :
  unencodable encoding text -> truthy encoding = true.
Proof. intros [[-> _] | [-> _]]; reflexivity. Qed.

(** X8. Text that the configured encoding cannot represent (Latin-1: a
    character above U+00FF; UTF-8: a surrogate) makes [tag] raise
    [UnicodeEncodeError] before anything else happens: no child process is
    started. *)
Theorem X8_unencodable_text_starts_no_child
    (spawn : PopenCall -> Outcome Process) (o : Object)
    (sentences : Sentences) (text encoding : str) (abbr : option str)
    (bin : str) :
  _encoding o = Some encoding -> _abbr_list o = Some abbr ->
  _treetagger_bin o = Some bin ->
  text_of sentences = Some text ->
  unencodable encoding text ->
  result_of spawn o sentences
  = Raise (mkExn UnicodeEncodeError [VStr encoding; VStr text])
  /\ events_of spawn o sentences = [].
Proof.
  intros He Ha Hb T U. unfold result_of, events_of, run_tag.
  rewrite (tag_eq spawn sentences o [] He Ha Hb).
  rewrite (prepare_input_text encoding sentences (unencodable_truthy U) T).
  rewrite (str_encode_unencodable U). split; reflexivity.
Qed.

Lemma X8_witness :
  unencodable (u "latin-1") [8364]%N
  /\ result_of (Sample.always Sample.echo) Sample.latin (OfList [[8364]%N])
     = Raise (mkExn UnicodeEncodeError [VStr (u "latin-1"); VStr [8364]%N])
  /\ events_of (Sample.always Sample.echo) Sample.latin (OfList [[8364]%N])
     = [].
Proof.
  assert (U : unencodable (u "latin-1") [8364]%N).
  { left. split; [reflexivity|]. constructor. vm_compute. discriminate. }
  split; [exact U|].
  exact (X8_unencodable_text_starts_no_child (Sample.always Sample.echo)
           Sample.latin (OfList [[8364]%N]) eq_refl eq_refl eq_refl eq_refl U).
Defined.

(** X9. When the child cannot be started, [tag] fails with the error of
    [Popen]: the only event is the attempt, nothing is written and nothing
    is printed. *)
Theorem X9_failed_start_is_passed_on
    (spawn : PopenCall -> Outcome Process) (o : Object)
    (sentences : Sentences) (encoding : str) (abbr : option str) (bin : str)
    (input : PyVal) (e : Exn) :
  _encoding o = Some encoding -> _abbr_list o = Some abbr ->
  _treetagger_bin o = Some bin ->
  prepare_input encoding sentences = Return input ->
  spawn (popen_call bin abbr) = Raise e ->
  result_of spawn o sentences = Raise e
  /\ events_of spawn o sentences = [EvPopen (popen_call bin abbr)].
Proof.
  intros He Ha Hb Hi Hs. unfold result_of, events_of, run_tag.
  rewrite (tag_eq spawn sentences o [] He Ha Hb), Hi. cbn zeta.
  rewrite Hs. split; reflexivity.
Qed.

Lemma X9_witness :
  prepare_input (u "utf-8") (OfStr (u "What")) = Return (VBytes (b "What"))
  /\ result_of no_exec Sample.english (OfStr (u "What"))
     = Raise (mkExn OSError [VStr (u "No such file or directory")])
  /\ events_of no_exec Sample.english (OfStr (u "What"))
     = [EvPopen (popen_call (u "/usr/bin/tree-tagger-english") None)].
Proof.
  assert (P : prepare_input (u "utf-8") (OfStr (u "What"))
              = Return (VBytes (b "What"))) by reflexivity.
  split; [exact P|].
  exact (X9_failed_start_is_passed_on no_exec Sample.english
           (OfStr (u "What")) eq_refl eq_refl eq_refl P eq_refl).
Defined.

(** X10. Output that is not valid UTF-8 is an error, not garbled text:
    when the child exits with status zero and its output does not decode,
    [tag] raises [UnicodeDecodeError] and returns no records, whatever
    encoding the object was configured with. *)
Theorem X10_undecodable_output_raises
    (spawn : PopenCall -> Outcome Process) (o : Object)
    (sentences : Sentences) (done : Completed) :
  child_finished spawn o sentences done ->
  returncode done = 0%Z ->
  utf8_decode (stdout done) = None ->
  result_of spawn o sentences
  = Raise (mkExn UnicodeDecodeError [VStr (u "utf-8"); VBytes (stdout done)]).
Proof.
  intros Hc Hrc Hd.
  destruct (run_tag_child_finished Hc) as (enc & log & He & Hrun).
  unfold result_of. rewrite Hrun, after_communicate_result, Hrc, Hd.
  reflexivity.
Qed.

Lemma X10_witness :
  child_finished (Sample.always (Sample.fixed 0 [xff] [])) Sample.english
    (OfList []) {| returncode := 0; stdout := [xff]; stderr := [] |}
  /\ result_of (Sample.always (Sample.fixed 0 [xff] [])) Sample.english
       (OfList [])
     = Raise (mkExn UnicodeDecodeError [VStr (u "utf-8"); VBytes [xff]]).
Proof.
  assert (Hc : child_finished (Sample.always (Sample.fixed 0 [xff] []))
                 Sample.english (OfList [])
                 {| returncode := 0; stdout := [xff]; stderr := [] |}).
  { eexists _, _, (Sample.fixed 0 [xff] []), _. vm_compute. auto. }
  split; [exact Hc|].
  exact (X10_undecodable_output_raises Hc eq_refl eq_refl).
Defined.

(* ================================================================== *)
(** ** The records and the output *)
(* ================================================================== *)

Lemma split_no_sep_in_fields (sep : N) (s : str) :
  Forall (fun field => ~ In sep field) (split sep s).
Proof.
  induction s as [|c s IH]; simpl.
  - constructor; [intros [] | constructor].
  - destruct (N.eqb c sep) eqn:E.
    + constructor; [intros [] | exact IH].
    + apply N.eqb_neq in E.
      destruct (split sep s) as [|w ws]; [constructor; [|constructor]|].
      * intros [H|[]]. congruence.
      * inversion IH; subst. constructor; [|assumption].
        intros [H|H]; [congruence | contradiction].
Qed.

Lemma split_incl (sep : N) (s field : str) (c : N) :
  In field (split sep s) -> In c field -> In c s.
Proof.
  revert field. induction s as [|d s IH]; simpl; intros field.
  - intros [<-|[]] [].
  - destruct (N.eqb d sep) eqn:E.
    + intros [<-|H] Hc; [destruct Hc | right; eapply IH; eauto].
    + destruct (split sep s) as [|w ws] eqn:S0.
      * intros [<-|[]] [<-|[]]. auto.
      * intros [<-|H] Hc.
        -- destruct Hc as [<-|Hc]; [auto | right; apply (IH w); simpl; auto].
        -- right. apply (IH field); simpl; auto.
Qed.

Lemma join_fields_of_lines (lines : list str) :
  map (join [TAB]) (map (split TAB) lines) = lines.
Proof.
  induction lines as [|l lines IH]; simpl; [reflexivity|].
  rewrite join_split, IH. reflexivity.
Qed.

(** X14. Nothing of the stripped output is lost or invented: the fields
    of each record joined by tabs, and the records joined by newlines,
    spell the stripped output, and no field holds a tab or a newline. *)
Theorem X14_records_spell_the_stripped_output
    (spawn : PopenCall -> Outcome Process) (o : Object)
    (sentences : Sentences) (done : Completed) (s : str) :
  child_finished spawn o sentences done ->
  returncode done = 0%Z ->
  decoded_output o done s ->
  exists records,
    result_of spawn o sentences = Return records
    /\ join [NL] (map (join [TAB]) records) = strip s
    /\ Forall (Forall (fun field => ~ In TAB field /\ ~ In NL field)) records.
Proof.
  intros Hc Hrc Hd.
  exists (map (split TAB) (split NL (strip s))).
  split; [exact (result_of_decoded Hc Hrc Hd)|]. split.
  - rewrite join_fields_of_lines. apply join_split.
  - apply Forall_forall. intros record Hr.
    apply in_map_iff in Hr. destruct Hr as (line & <- & Hl).
    pose proof (split_no_sep_in_fields NL (strip s)) as NoNL.
    rewrite Forall_forall in NoNL. specialize (NoNL line Hl).
    pose proof (split_no_sep_in_fields TAB line) as NoTab.
    rewrite Forall_forall in *. intros field Hf. split.
    + apply NoTab. exact Hf.
    + intros Hin. apply NoNL. exact (split_incl TAB line field NL Hf Hin).
Qed.

Lemma X14_witness :
  child_finished (Sample.always (Sample.fixed 0 Sample.two_newlines []))
    Sample.english (OfList [u "a"])
    {| returncode := 0; stdout := Sample.two_newlines; stderr := [] |}
  /\ exists records,
       result_of (Sample.always (Sample.fixed 0 Sample.two_newlines []))
         Sample.english (OfList [u "a"]) = Return records
       /\ join [NL] (map (join [TAB]) records)
          = strip (u "a" ++ [TAB] ++ u "b" ++ [NL; NL])
       /\ Forall (Forall (fun field => ~ In TAB field /\ ~ In NL field))
            records.
Proof.
  assert (Hc : child_finished
                 (Sample.always (Sample.fixed 0 Sample.two_newlines []))
                 Sample.english (OfList [u "a"])
                 {| returncode := 0; stdout := Sample.two_newlines;
                    stderr := [] |}).
  { eexists _, _, (Sample.fixed 0 Sample.two_newlines []), _.
    vm_compute. auto. }
  assert (Hd : decoded_output Sample.english
                 {| returncode := 0; stdout := Sample.two_newlines;
                    stderr := [] |}
                 (u "a" ++ [TAB] ++ u "b" ++ [NL; NL])).
  { exists (u "utf-8"). split; reflexivity. }
  split; [exact Hc|].
  exact (X14_records_spell_the_stripped_output Hc eq_refl Hd).
Defined.

(** X7. Through a child that copies its input to its output, an object
    configured for UTF-8 gives the words back: for a non-empty list of
    newline-free words whose joined text neither begins nor ends with
    whitespace, [tag] returns one record per word, in order, each the word
    cut at its tabs. *)
Theorem X7_copying_child_gives_the_words_back
    (spawn : PopenCall -> Outcome Process) (o : Object)
    (tokens : list str) (done : Completed) :
  _encoding o = Some (u "utf-8") ->
  child_finished spawn o (OfList tokens) done ->
  returncode done = 0%Z ->
  In (EvCommunicate (VBytes (stdout done)))
     (events_of spawn o (OfList tokens)) ->
  tokens <> [] ->
  Forall newline_free tokens ->
  begins_with_space (join [NL] tokens) = false ->
  ends_with_space (join [NL] tokens) = false ->
  result_of spawn o (OfList tokens) = Return (map (split TAB) tokens).
Proof.
  intros He Hc Hrc Hin Hne Hnl Hb Hend.
  destruct (child_finished_inv Hc)
    as (enc & abbr & bin & x & p & He' & Ha & Hb' & Hi & Hs & Hd).
  rewrite He in He'. injection He' as <-.
  assert (Hx : stdout done = x).
  { unfold events_of in Hin.
    rewrite (run_tag_finished spawn o (OfList tokens) He Ha Hb' Hi Hs) in Hin.
    unfold after_communicate in Hin. rewrite Hd, Hrc in Hin.
    cbn [Z.eqb negb snd trace] in Hin.
    destruct Hin as [H|[H|[]]]; [discriminate H | now injection H]. }
  assert (D : decoded_output o done (join [NL] tokens)).
  { exists (u "utf-8"). split; [exact He|]. rewrite Hx.
    exact (decode_prepared_utf8 (OfList tokens) eq_refl Hi). }
  rewrite (result_of_decoded Hc Hrc D).
  rewrite (strip_no_space _ Hb Hend), (split_join NL Hne Hnl). reflexivity.
Qed.

Lemma X7_witness :
  child_finished (Sample.always cat) Sample.english
    (OfList [[233]%N; u "is" ++ [TAB] ++ u "be"])
    (cat [xc3; xa9; x0a; "i"; "s"; x09; "b"; "e"]%byte)
  /\ result_of (Sample.always cat) Sample.english
       (OfList [[233]%N; u "is" ++ [TAB] ++ u "be"])
     = Return [[[233]%N]; [u "is"; u "be"]].
Proof.
  assert (Hc : child_finished (Sample.always cat) Sample.english
                 (OfList [[233]%N; u "is" ++ [TAB] ++ u "be"])
                 (cat [xc3; xa9; x0a; "i"; "s"; x09; "b"; "e"]%byte)).
  { eexists _, _, cat, _. vm_compute. auto. }
  split; [exact Hc|].
  assert (Hnl : Forall newline_free [[233]%N; u "is" ++ [TAB] ++ u "be"]).
  { repeat constructor; unfold newline_free; vm_compute;
      intros H; repeat (destruct H as [H|H]; [discriminate H|]); exact H. }
  assert (Hin : In (EvCommunicate
                      (VBytes (stdout (cat [xc3; xa9; x0a; "i"; "s"; x09;
                                            "b"; "e"]%byte))))
                   (events_of (Sample.always cat) Sample.english
                      (OfList [[233]%N; u "is" ++ [TAB] ++ u "be"]))).
  { vm_compute. auto. }
  assert (Hne : [[233]%N; u "is" ++ [TAB] ++ u "be"] <> []) by discriminate.
  exact (@X7_copying_child_gives_the_words_back (Sample.always cat)
           Sample.english _ _ eq_refl Hc eq_refl Hin Hne Hnl eq_refl eq_refl).
Defined.

Lemma tag_same_input (spawn : PopenCall -> Outcome Process)
    (s1 s2 : Sentences) (o : Object) (log : list Event) (encoding : str) :
  _encoding o = Some encoding ->
  prepare_input encoding s1 = prepare_input encoding s2 ->
  tag spawn s1 {| self := o; trace := log |}
  = tag spawn s2 {| self := o; trace := log |}.
Proof.
  intros He H. unfold tag, bind, getattr, lift. cbn [self trace].
  rewrite He, H. reflexivity.
Qed.

(** X11. The three forms of input agree: a list of words, the string of
    the words joined by newlines, and the bytes of that string in the
    configured encoding make [tag] do and return the same. *)
Theorem X11_list_string_and_bytes_agree
    (spawn : PopenCall -> Outcome Process) (o : Object) (encoding : str)
    (words : list str) (x : bytes) :
  _encoding o = Some encoding ->
  str_encode (join [NL] words) encoding = Return x ->
  run_tag spawn o (OfList words) = run_tag spawn o (OfStr (join [NL] words))
  /\ run_tag spawn o (OfStr (join [NL] words)) = run_tag spawn o (OfBytes x).
Proof.
  intros He E. split; [reflexivity|].
  apply (tag_same_input spawn _ _ o [] He).
  assert (T : truthy encoding = true).
  { destruct (str_encode_inv _ _ E) as [[-> _] | [-> _]]; reflexivity. }
  rewrite !(prepare_input_truthy encoding _ T), E. reflexivity.
Qed.

Lemma X11_witness :
  str_encode (join [NL] Sample.what_is_the_answer) (u "utf-8")
  = Return (b "What" ++ [x0a] ++ b "is" ++ [x0a] ++ b "the" ++ [x0a]
            ++ b "answer")
  /\ run_tag (Sample.always Sample.echo) Sample.english
       (OfList Sample.what_is_the_answer)
     = run_tag (Sample.always Sample.echo) Sample.english
         (OfStr (join [NL] Sample.what_is_the_answer))
  /\ run_tag (Sample.always Sample.echo) Sample.english
       (OfStr (join [NL] Sample.what_is_the_answer))
     = run_tag (Sample.always Sample.echo) Sample.english
         (OfBytes (b "What" ++ [x0a] ++ b "is" ++ [x0a] ++ b "the" ++ [x0a]
                   ++ b "answer")).
Proof.
  assert (E : str_encode (join [NL] Sample.what_is_the_answer) (u "utf-8")
              = Return (b "What" ++ [x0a] ++ b "is" ++ [x0a] ++ b "the"
                        ++ [x0a] ++ b "answer")) by reflexivity.
  split; [exact E|].
  exact (@X11_list_string_and_bytes_agree (Sample.always Sample.echo)
           Sample.english (u "utf-8") Sample.what_is_the_answer _ eq_refl E).
Defined.

Lemma str_encode_error (s encoding : str) (e : Exn) :
  encoding = u "latin-1" \/ encoding = u "utf-8" ->
  str_encode s encoding = Raise e -> exc_class e = UnicodeEncodeError.
Proof.
  intros [-> | ->].
  - rewrite str_encode_latin1. destruct (latin1_encode s); [discriminate|].
    intros H. injection H as <-. reflexivity.
  - rewrite str_encode_utf8. destruct (utf8_encode s); [discriminate|].
    intros H. injection H as <-. reflexivity.
Qed.

(** X15. For an input that is a list of strings, one string or bytes
    (the inputs of [Sentences]), the errors of a call on a constructed
    object are four: the input cannot be encoded ([UnicodeEncodeError],
    before any child is started); the child cannot be started (the error
    of [Popen]); the child exits with a status other than zero ([OSError]
    with the fixed message); the output is not valid UTF-8
    ([UnicodeDecodeError]). For these inputs [tag] raises nothing else;
    other objects, which the source passes on to [communicate], are not
    covered. *)
Theorem X15_errors_of_a_call
    (find_binary : FindBinaryCall -> Outcome str) (expanduser : str -> str)
    (spawn : PopenCall -> Outcome Process)
    (path_to_home : option str) (language encoding : str) (verbose : bool)
    (abbreviation_list : option str) (log log' : list Event) (o : Object)
    (sentences : Sentences) (e : Exn) :
  TreeTagger find_binary expanduser path_to_home language encoding verbose
    abbreviation_list log = (Return o, log') ->
  result_of spawn o sentences = Raise e ->
  (exc_class e = UnicodeEncodeError /\ events_of spawn o sentences = [])
  \/ (exists c, spawn c = Raise e /\ events_of spawn o sentences = [EvPopen c])
  \/ e = mkExn OSError [VStr (u "TreeTagger command failed!")]
  \/ exc_class e = UnicodeDecodeError.
Proof.
  intros H. apply TreeTagger_success in H.
  destruct H as (K & bin & _ & ->).
  pose proof (known_pair_encoding _ _ K) as Henc.
  pose proof (known_pair_truthy _ _ K) as T.
  unfold result_of, events_of, run_tag.
  rewrite (tag_eq spawn sentences _ [] (enc:=encoding)
             (abbr:=abbreviation_list) (bin:=bin)) by reflexivity.
  rewrite (prepare_input_truthy encoding sentences T).
  assert (G : forall x,
    fst (match spawn (popen_call bin abbreviation_list) with
         | Return p =>
             after_communicate encoding (p x)
               {| _abbr_list := Some abbreviation_list;
                  _encoding := Some encoding; _treetagger_bin := Some bin |}
               (([] ++ [EvPopen (popen_call bin abbreviation_list)])
                ++ [EvCommunicate (VBytes x)])
         | Raise e0 =>
             (Raise e0,
              {| self := {| _abbr_list := Some abbreviation_list;
                            _encoding := Some encoding;
                            _treetagger_bin := Some bin |};
                 trace := [] ++ [EvPopen (popen_call bin abbreviation_list)] |})
         end) = Raise e ->
    (exists c,
       spawn c = Raise e
       /\ trace (snd (match spawn (popen_call bin abbreviation_list) with
                      | Return p =>
                          after_communicate encoding (p x)
                            {| _abbr_list := Some abbreviation_list;
                               _encoding := Some encoding;
                               _treetagger_bin := Some bin |}
                            (([] ++ [EvPopen (popen_call bin abbreviation_list)])
                             ++ [EvCommunicate (VBytes x)])
                      | Raise e0 =>
                          (Raise e0,
                           {| self := {| _abbr_list := Some abbreviation_list;
                                         _encoding := Some encoding;
                                         _treetagger_bin := Some bin |};
                              trace := [] ++ [EvPopen (popen_call bin abbreviation_list)] |})
                      end)) = [EvPopen c])
    \/ e = mkExn OSError [VStr (u "TreeTagger command failed!")]
    \/ exc_class e = UnicodeDecodeError).
  { intros x. destruct (spawn (popen_call bin abbreviation_list)) as [p|e0] eqn:S0.
    - rewrite after_communicate_result.
      destruct (negb (returncode (p x) =? 0)%Z).
      + intros H. injection H as <-. right. left. reflexivity.
      + destruct (utf8_decode (stdout (p x))); [discriminate|].
        intros H. injection H as <-. right. right. reflexivity.
    - cbn [fst snd trace]. intros H. injection H as <-. left.
      exists (popen_call bin abbreviation_list). auto. }
  destruct sentences as [words|text|raw]; cbn zeta.
  - destruct (str_encode (join [NL] words) encoding) as [x|e0] eqn:E.
    + intros H. right. exact (G x H).
    + cbn [fst snd trace]. intros H. injection H as <-. left.
      split; [exact (str_encode_error _ Henc E) | reflexivity].
  - destruct (str_encode text encoding) as [x|e0] eqn:E.
    + intros H. right. exact (G x H).
    + cbn [fst snd trace]. intros H. injection H as <-. left.
      split; [exact (str_encode_error _ Henc E) | reflexivity].
  - intros H. right. exact (G raw H).
Qed.

Lemma X15_witness :
  TreeTagger Sample.found Sample.home None (u "latin") (u "latin-1") false
    None []
  = (Return Sample.latin,
     [EvFindBinary (find_binary_call Sample.home None (u "latin") false)])
  /\ result_of (Sample.always Sample.echo) Sample.latin (OfStr [8364]%N)
     = Raise (mkExn UnicodeEncodeError [VStr (u "latin-1"); VStr [8364]%N])
  /\ ((exc_class (mkExn UnicodeEncodeError [VStr (u "latin-1"); VStr [8364]%N])
       = UnicodeEncodeError
       /\ events_of (Sample.always Sample.echo) Sample.latin (OfStr [8364]%N)
          = [])
      \/ (exists c,
            Sample.always Sample.echo c
            = Raise (mkExn UnicodeEncodeError
                       [VStr (u "latin-1"); VStr [8364]%N])
            /\ events_of (Sample.always Sample.echo) Sample.latin
                 (OfStr [8364]%N) = [EvPopen c])
      \/ mkExn UnicodeEncodeError [VStr (u "latin-1"); VStr [8364]%N]
         = mkExn OSError [VStr (u "TreeTagger command failed!")]
      \/ exc_class (mkExn UnicodeEncodeError [VStr (u "latin-1"); VStr [8364]%N])
         = UnicodeDecodeError).
Proof.
  assert (H : TreeTagger Sample.found Sample.home None (u "latin")
                (u "latin-1") false None []
              = (Return Sample.latin,
                 [EvFindBinary
                    (find_binary_call Sample.home None (u "latin") false)]))
    by reflexivity.
  assert (R : result_of (Sample.always Sample.echo) Sample.latin
                (OfStr [8364]%N)
              = Raise (mkExn UnicodeEncodeError
                         [VStr (u "latin-1"); VStr [8364]%N]))
    by reflexivity.
  split; [exact H|]. split; [exact R|].
  exact (@X15_errors_of_a_call Sample.found Sample.home
           (Sample.always Sample.echo) None (u "latin") (u "latin-1") false
           None [] _ Sample.latin (OfStr [8364]%N) _ H R).
Defined.

(** X16. The language table and the list of character sets agree, and a
    language fixes its encoding: the constructor's table has an entry
    under an encoding exactly when the encoding is in
    [_treetagger_charset], and no language is entered under two
    encodings. *)
Theorem X16_language_table_is_consistent :
  (forall encoding,
     (exists language, in_language_table language encoding)
     <-> In encoding _treetagger_charset)
  /\ (forall language encoding encoding',
        in_language_table language encoding ->
        in_language_table language encoding' ->
        encoding = encoding').
Proof.
  split.
  - intros encoding. split.
    + intros (language & H). apply known_pair_table in H.
      destruct (known_pair_encoding _ _ H) as [-> | ->]; simpl; auto.
    + intros [<-|[<-|[]]].
      * exists (u "german"). apply known_pair_table. reflexivity.
      * exists (u "latin"). apply known_pair_table. reflexivity.
  - intros language e1 e2 H1 H2.
    pose proof H1 as K1. pose proof H2 as K2.
    apply known_pair_table in K1. apply known_pair_table in K2.
    destruct (known_pair_encoding _ _ K1) as [-> | ->];
      destruct (known_pair_encoding _ _ K2) as [-> | ->]; try reflexivity;
      exfalso.
    + destruct H1 as (l1 & E1 & I1). injection E1 as <-.
      destruct I1 as [<-|[<-|[<-|[<-|[]]]]]; discriminate K2.
    + destruct H2 as (l2 & E2 & I2). injection E2 as <-.
      destruct I2 as [<-|[<-|[<-|[<-|[]]]]]; discriminate K1.
Qed.
